(** * zk-account-soundness: the account fetcher, the state reconciler and
      the command-line driver of [zk.py], embedded and verified.

    The script queries two JSON-RPC endpoints for the balance and the
    transaction count of a list of accounts and reports the accounts on
    which the two endpoints disagree.  Python values are modelled as the
    script has them: an account record is a [dict] from field name to an
    integer or a string, a state map is a [dict] from address to record,
    and every effect of the script (printing, RPC calls, connectivity
    probes, [sys.exit]) goes through a state-and-exit monad that records a
    chronological trace. *)

From Stdlib Require Import ZArith.
From stdpp Require Import base strings list gmap sorting pretty.

(** ** Python values held in an account record *)

(** The fields of a record hold an [int] (balance, transaction count) or a
    [str] (error message). *)
Inductive value : Type :=
| VInt (n : Z)
| VStr (s : string).

#[global] Instance value_eq_dec : EqDecision value.
Proof. solve_decision. Defined.

(** Python's [==] on these values: an [int] never equals a [str]. *)
Definition value_eqb (x y : value) : bool :=
  match x, y with
  | VInt n1, VInt n2 => bool_decide (n1 = n2)
  | VStr s1, VStr s2 => bool_decide (s1 = s2)
  | _, _ => false
  end.

(** [str(v)], as the f-strings of the report apply it. *)
Definition py_str (v : value) : string :=
  match v with
  | VInt n => pretty n
  | VStr s => s
  end.

(** ** Python dictionaries

    A [dict] keeps its keys in insertion order; assigning to a key that is
    already present replaces the value in place.  Equality of two dicts
    ignores the order: same number of entries, and every key of the left
    one is bound to an equal value in the right one. *)
Module Dict.
Section dict.
Context {V : Type}.

Definition t : Type := list (string * V).

Definition empty : t := [].

Fixpoint get (d : t) (k : string) : option V :=
  match d with
  | [] => None
  | (k', v) :: d' => if decide (k = k') then Some v else get d' k
  end.

(** [d.get(k, dflt)] *)
Definition get_default (d : t) (k : string) (dflt : V) : V :=
  default dflt (get d k).

(** [d[k] = v] *)
Fixpoint set (d : t) (k : string) (v : V) : t :=
  match d with
  | [] => [(k, v)]
  | (k', v') :: d' =>
      if decide (k = k') then (k, v) :: d' else (k', v') :: set d' k v
  end.

(** [d.keys()], in iteration order *)
Definition keys (d : t) : list string := d.*1.

(** [d1 == d2] *)
Definition eqb (veq : V → V → bool) (d1 d2 : t) : bool :=
  bool_decide (length d1 = length d2)
  && forallb (λ kv, match get d2 kv.1 with
                    | Some v' => veq kv.2 v'
                    | None => false
                    end) d1.
End dict.
Global Arguments t : clear implicits.
End Dict.

(** An account record and a state map, as [analyze_accounts] builds them. *)
Abbreviation record := (Dict.t value).
Abbreviation state := (Dict.t (Dict.t value)).

(** [{"balance_wei": bal, "tx_count": txs}] *)
Definition Ok (bal txs : Z) : record :=
  [("balance_wei", VInt bal); ("tx_count", VInt txs)].

(** [{"error": msg}] *)
Definition Err (msg : string) : record :=
  [("error", VStr msg)].

(** [va == vb] on records *)
Definition record_eqb (va vb : record) : bool := Dict.eqb value_eqb va vb.

(** The records of the data model: an [Ok] or an [Err], nothing else. *)
Definition is_account_record (r : record) : bool :=
  match r with
  | [(k1, VInt _); (k2, VInt _)] =>
      bool_decide (k1 = "balance_wei") && bool_decide (k2 = "tx_count")
  | [(k, VStr _)] => bool_decide (k = "error")
  | _ => false
  end.

(** A state map of the data model: every entry holds an account record. *)
Definition is_state_map (s : state) : bool :=
  forallb (λ kv, is_account_record kv.2) s.

(** ** The state reconciler *)

(** [sorted(...)] on strings.  Python orders strings by code point; the
    strings here are UTF-8 byte sequences compared byte by byte, which is
    the same order.  The keys of a set are distinct, so the result is the
    one ascending arrangement whatever the sorting algorithm. *)
Definition sorted (l : list string) : list string := merge_sort String.le l.

(** [set(a.keys()) | set(b.keys())] *)
Definition key_union (a b : state) : gset string :=
  list_to_set (Dict.keys a) ∪ list_to_set (Dict.keys b).

(** The test [va != vb] of the loop body, with [va, vb = a.get(addr, {}),
    b.get(addr, {})]. *)
Definition differs (a b : state) (addr : string) : bool :=
  let va := Dict.get_default a addr Dict.empty in
  let vb := Dict.get_default b addr Dict.empty in
  negb (record_eqb va vb).

Definition compare_states (a b : state) : list string :=
  foldl (λ diffs addr, if differs a b addr then diffs ++ [addr] else diffs)
        [] (sorted (elements (key_union a b))).

(** ** The outside world

    [Web3(Web3.HTTPProvider(url, request_kwargs={"timeout": t}))]: a client
    handle is determined by the endpoint and the timeout it was built with. *)
Record Web3 : Type := { endpoint : string; timeout : Z }.

(** A remote call returns an integer or raises; the exception is kept as
    [str(e)], the only thing the script reads from it. *)
Inductive rpc_result : Type :=
| Returned (n : Z)
| Raised (msg : string).

(** The parsed command line, [argparse.Namespace]. *)
Record Namespace : Type := {
  rpc_a : string;
  rpc_b : string;
  address : list string;
  block_a : string;
  block_b : string;
  json : bool;
  arg_timeout : Z
}.

(** The object handed to [json.dumps] at the end of [main]. *)
Record report (F : Type) : Type := {
  out_rpc_a : string;
  out_rpc_b : string;
  out_block_a : string;
  out_block_b : string;
  out_addresses : list string;
  out_state_a : state;
  out_state_b : state;
  out_diffs : list string;
  out_timestamp_utc : string;
  out_elapsed_seconds : F;
  out_ok : bool
}.
Global Arguments Build_report {F}.

(** Everything the script imports and does not define: the two endpoints
    (a remote call may change the world and may answer differently each
    time), the clock, the address helpers of web3 and [json.dumps]. *)
Class Outside : Type := {
  World : Type;
  Float : Type;
  eth_get_balance : Web3 → string → string → World → rpc_result * World;
  eth_get_transaction_count :
    Web3 → string → string → World → rpc_result * World;
  w3_is_connected : Web3 → World → bool * World;
  is_address : string → bool;
  to_checksum_address : string → string;
  utcnow_isoformat : World → string * World;
  time_time : World → Float * World;
  (** [round(t1 - t0, 2)] *)
  round2_sub : Float → Float → Float;
  json_dumps : report Float → string
}.

(** ** Effects

    What a run does, in the order it does it. *)
Inductive event : Type :=
| Print (text : string)
| Probe (w3 : Web3)
| BalanceCall (w3 : Web3) (addr block : string)
| TxCountCall (w3 : Web3) (addr block : string).

#[global] Instance Web3_eq_dec : EqDecision Web3.
Proof. solve_decision. Defined.
#[global] Instance event_eq_dec : EqDecision event.
Proof. solve_decision. Defined.

(** The text written to standard output, one element per [print]. *)
Definition stdout (tr : list event) : list string :=
  omap (λ e, match e with Print s => Some s | _ => None end) tr.

(** Is the event a use of the network? *)
Definition is_network (e : event) : bool :=
  match e with Print _ => false | _ => true end.

(** How a computation ends: with a value, with an exception that an
    [except Exception] clause catches, or with [sys.exit]. *)
Inductive outcome (A : Type) : Type :=
| Done (a : A)
| Raise (msg : string)
| SysExit (code : Z).
Global Arguments Done {A}.
Global Arguments Raise {A}.
Global Arguments SysExit {A}.

Section script.
Context `{Outside}.

Record machine : Type := { world : World; trace : list event }.

Definition M (A : Type) : Type := machine → outcome A * machine.

#[global] Instance M_ret : MRet M := λ A a m, (Done a, m).

#[global] Instance M_bind : MBind M := λ A B k c m,
  match c m with
  | (Done a, m') => k a m'
  | (Raise e, m') => (Raise e, m')
  | (SysExit code, m') => (SysExit code, m')
  end.

Definition emit (e : event) (m : machine) : machine :=
  {| world := world m; trace := trace m ++ [e] |}.

Definition print (text : string) : M unit := λ m, (Done (), emit (Print text) m).

Definition sys_exit {A} (code : Z) : M A := λ m, (SysExit code, m).

(** [try: body / except Exception as e: handler(str(e))]; [SystemExit]
    is not an [Exception] and passes through. *)
Definition try_except {A} (body : M A) (handler : string → M A) : M A := λ m,
  match body m with
  | (Raise e, m') => handler e m'
  | r => r
  end.

(** A [for] loop that updates one local variable. *)
Fixpoint for_fold {A B} (body : B → A → M B) (l : list A) (acc : B) : M B :=
  match l with
  | [] => mret acc
  | x :: l' => acc' ← body acc x; for_fold body l' acc'
  end.

(** A [for] loop run for its effects only. *)
Definition for_each {A} (body : A → M unit) (l : list A) : M unit :=
  for_fold (λ _ x, body x) l ().

(** Lift an answer of the outside world, recording the call. *)
Definition remote (e : event) (call : World → rpc_result * World) : M Z := λ m,
  let '(r, w) := call (world m) in
  let m' := {| world := w; trace := trace m ++ [e] |} in
  match r with
  | Returned n => (Done n, m')
  | Raised msg => (Raise msg, m')
  end.

(** ** The account state fetcher *)

Definition fetch_tx_count (w3 : Web3) (address block : string) : M Z :=
  remote (TxCountCall w3 address block)
         (eth_get_transaction_count w3 address block).

Definition fetch_balance (w3 : Web3) (address block : string) : M Z :=
  remote (BalanceCall w3 address block) (eth_get_balance w3 address block).

(** The body of the loop of [analyze_accounts]. *)
Definition analyze_one (w3 : Web3) (block : string)
    (results : state) (addr : string) : M state :=
  print ("🔍 Fetching data for " +:+ addr +:+ " ...");;
  try_except
    (bal ← fetch_balance w3 addr block;
     txs ← fetch_tx_count w3 addr block;
     mret (Dict.set results addr (Ok bal txs)))
    (λ e, mret (Dict.set results addr (Err e))).

Definition analyze_accounts (w3 : Web3) (addresses : list string)
    (block : string) : M state :=
  for_fold (analyze_one w3 block) addresses Dict.empty.

(** ** The command-line driver *)

(** [str.startswith] with a tuple of prefixes *)
Definition startswith (s : string) (prefixes : list string) : bool :=
  existsb (λ p, String.prefix p s) prefixes.

Definition clock_utcnow : M string := λ m,
  let '(s, w) := utcnow_isoformat (world m) in
  (Done s, {| world := w; trace := trace m |}).

Definition clock_time : M Float := λ m,
  let '(t, w) := time_time (world m) in
  (Done t, {| world := w; trace := trace m |}).

Definition is_connected (w3 : Web3) : M bool := λ m,
  let '(c, w) := w3_is_connected w3 (world m) in
  (Done c, {| world := w; trace := trace m ++ [Probe w3] |}).

(** The body of the loop over the two RPC URLs. *)
Definition check_rpc_url (rpc : string) : M unit :=
  if negb (startswith rpc ["http://"; "https://"]) then
    print ("❌ Invalid RPC URL: " +:+ rpc);;
    sys_exit 1
  else mret ().

(** The body of the loop over [args.address]. *)
Definition check_address (addrs : list string) (a : string)
    : M (list string) :=
  if negb (is_address a) then
    print ("❌ Invalid address: " +:+ a);;
    sys_exit 1
  else mret (addrs ++ [to_checksum_address a]).

(** [main], from the URL check to the connectivity probes: the checks
    that end the run with [sys.exit(1)].  On success the normalised
    addresses and the two clients are what the rest of [main] uses. *)
Definition preflight (args : Namespace) : M (list string * Web3 * Web3) :=
  for_each check_rpc_url [rpc_a args; rpc_b args];;
  addrs ← for_fold check_address (address args) [];
  let w3a := {| endpoint := rpc_a args; timeout := arg_timeout args |} in
  let w3b := {| endpoint := rpc_b args; timeout := arg_timeout args |} in
  up_a ← is_connected w3a;
  down ← (if negb up_a then mret true
          else up_b ← is_connected w3b; mret (negb up_b));
  if down : bool then
    print "❌ Failed to connect to one or both RPCs.";;
    sys_exit 1
  else mret (addrs, w3a, w3b).

Definition nl : string := String (Ascii.ascii_of_nat 10) "".

(** One line of the text report: the body of the loop over [addrs]. *)
Definition result_line (state_a state_b : state) (addr : string) : string :=
  let a := Dict.get_default state_a addr Dict.empty in
  let b := Dict.get_default state_b addr Dict.empty in
  let matched := if record_eqb a b then "✅ MATCH" else "❌ DIFF" in
  let bal_a := Dict.get_default a "balance_wei" (VStr "ERR") in
  let bal_b := Dict.get_default b "balance_wei" (VStr "ERR") in
  let txa := Dict.get_default a "tx_count" (VStr "ERR") in
  let txb := Dict.get_default b "tx_count" (VStr "ERR") in
  "  • " +:+ addr +:+ ": Balance " +:+ py_str bal_a +:+ " vs "
    +:+ py_str bal_b +:+ ", TXs " +:+ py_str txa +:+ " vs " +:+ py_str txb
    +:+ " → " +:+ matched.

(** The body of the loop that prints the text report. *)
Definition report_one (state_a state_b : state) (addr : string) : M unit :=
  print (result_line state_a state_b addr).

(** The summary line printed after the report. *)
Definition summary_line (diffs : list string) : string :=
  match diffs with
  | [] => nl +:+ "🎯 Account states match across both RPCs."
  | _ => nl +:+ "🚨 " +:+ pretty (length diffs)
           +:+ " account(s) differ between the two sources."
  end.

(** [0 if not diffs else 2] *)
Definition exit_code (diffs : list string) : Z :=
  match diffs with [] => 0 | _ => 2 end.

(** [main], from the banner to the final [sys.exit]. *)
Definition audit (args : Namespace) (addrs : list string) (w3a w3b : Web3)
    : M unit :=
  print "🔧 zk-account-soundness";;
  print ("🔗 RPC A: " +:+ rpc_a args);;
  print ("🔗 RPC B: " +:+ rpc_b args);;
  print ("🧱 Block A: " +:+ block_a args +:+ " | Block B: " +:+ block_b args);;
  print ("👥 Accounts: " +:+ pretty (length addrs));;
  stamp ← clock_utcnow;
  print ("🕒 Comparison Timestamp: " +:+ stamp +:+ "Z");;
  start ← clock_time;
  state_a ← analyze_accounts w3a addrs (block_a args);
  state_b ← analyze_accounts w3b addrs (block_b args);
  let diffs := compare_states state_a state_b in
  stop ← clock_time;
  let elapsed := round2_sub stop start in
  print (nl +:+ "📊 Results:");;
  for_each (report_one state_a state_b) addrs;;
  print (summary_line diffs);;
  (if json args then
     stamp' ← clock_utcnow;
     print (json_dumps
              (Build_report (rpc_a args) (rpc_b args) (block_a args)
                 (block_b args) addrs state_a state_b diffs
                 (stamp' +:+ "Z") elapsed
                 (bool_decide (length diffs = 0%nat))))
   else mret ());;
  sys_exit (exit_code diffs).

Definition main (args : Namespace) : M unit :=
  '(addrs, w3a, w3b) ← preflight args;
  audit args addrs w3a w3b.

(** The status the process ends with: the argument of [sys.exit], 1 for
    an uncaught exception, 0 when the script runs off its end. *)
Definition exit_status {A} (o : outcome A) : Z :=
  match o with
  | Done _ => 0
  | Raise _ => 1
  | SysExit code => code
  end.

(** The machine at process start: nothing has happened yet. *)
Definition boot (w : World) : machine := {| world := w; trace := [] |}.

(** A whole run from a given world: the status and the trace. *)
Definition run (args : Namespace) (w : World) : Z * list event :=
  let '(o, m) := main args (boot w) in
  (exit_status o, trace m).
End script.

(** ** Vocabulary of the statements *)

(** The progress notice printed before an address is fetched. *)
Definition progress_line (addr : string) : string :=
  "🔍 Fetching data for " +:+ addr +:+ " ...".

(** Where a key lands when it is assigned to a dict with keys [ks]. *)
Definition add_key (ks : list string) (k : string) : list string :=
  if decide (k ∈ ks) then ks else ks ++ [k].

(** The distinct elements of a list, in the order of their first
    occurrence: the key order of a dict filled by assigning the elements
    of the list one after the other. *)
Definition insertion_order (l : list string) : list string :=
  foldl add_key [] l.

(** The message of the first failing call when [addr] is fetched in world
    [w], if one of the two calls fails. *)
Definition fetch_failure `{Outside} (w3 : Web3) (addr block : string)
    (w : World) : option string :=
  match eth_get_balance w3 addr block w with
  | (Raised e, _) => Some e
  | (Returned _, w1) =>
      match eth_get_transaction_count w3 addr block w1 with
      | (Raised e, _) => Some e
      | (Returned _, _) => None
      end
  end.

(** The two clients [main] builds. *)
Definition client_a (args : Namespace) : Web3 :=
  {| endpoint := rpc_a args; timeout := arg_timeout args |}.
Definition client_b (args : Namespace) : Web3 :=
  {| endpoint := rpc_b args; timeout := arg_timeout args |}.

(** The URL has one of the two accepted schemes. *)
Definition url_ok (rpc : string) : bool :=
  String.prefix "http://" rpc || String.prefix "https://" rpc.

(** No fatal pre-flight check fails: both URLs are well-formed, every
    address is valid, and both clients answer the probe (the second is
    probed in the world the first probe leaves). *)
Definition preflight_ok `{Outside} (args : Namespace) (w : World) : bool :=
  url_ok (rpc_a args) && url_ok (rpc_b args)
  && forallb is_address (address args)
  && (w3_is_connected (client_a args) w).1
  && (w3_is_connected (client_b args)
        (w3_is_connected (client_a args) w).2).1.

(** The addresses the run works on. *)
Definition normalized `{Outside} (args : Namespace) : list string :=
  to_checksum_address <$> address args.

(** The banner, given the timestamp read from the clock. *)
Definition banner_lines (args : Namespace) (addrs : list string)
    (stamp : string) : list string :=
  [ "🔧 zk-account-soundness";
    "🔗 RPC A: " +:+ rpc_a args;
    "🔗 RPC B: " +:+ rpc_b args;
    "🧱 Block A: " +:+ block_a args +:+ " | Block B: " +:+ block_b args;
    "👥 Accounts: " +:+ pretty (length addrs);
    "🕒 Comparison Timestamp: " +:+ stamp +:+ "Z" ].

(** The machine after a successful pre-flight started in world [w]: both
    probes have been made and nothing has been printed. *)
Definition after_preflight `{Outside} (args : Namespace) (w : World)
    : machine :=
  {| world := (w3_is_connected (client_b args)
                 (w3_is_connected (client_a args) w).2).2;
     trace := [Probe (client_a args); Probe (client_b args)] |}.

(** The machine in which the first fetch starts when [audit] is entered in
    [m]: the banner is out, the clock has been read twice. *)
Definition fetch_start `{Outside} (args : Namespace) (addrs : list string)
    (m : machine) : machine :=
  let '(stamp, w1) := utcnow_isoformat (world m) in
  {| world := (time_time w1).2;
     trace := trace m ++ (Print <$> banner_lines args addrs stamp) |}.

(** The text report and the summary, for the two state maps of a run. *)
Definition text_report (addrs : list string) (state_a state_b : state)
    : list string :=
  [nl +:+ "📊 Results:"]
  ++ (result_line state_a state_b <$> addrs)
  ++ [summary_line (compare_states state_a state_b)].

(** The events of one turn of the fetch loop; [full] tells whether the
    turn went on to the transaction-count call. *)
Definition turn_events (w3 : Web3) (block addr : string) (full : bool)
    : list event :=
  Print (progress_line addr) :: BalanceCall w3 addr block
    :: (if full then [TxCountCall w3 addr block] else []).

(** The events of a whole fetch, turn after turn. *)
Fixpoint turns (w3 : Web3) (block : string) (l : list string)
    (fulls : list bool) : list event :=
  match l, fulls with
  | addr :: l', full :: fulls' =>
      turn_events w3 block addr full ++ turns w3 block l' fulls'
  | _, _ => []
  end.

(** The balance lookups of a trace, in order: client, address, block. *)
Definition balance_calls (tr : list event) : list (Web3 * string * string) :=
  omap (λ e, match e with
             | BalanceCall w3 addr block => Some (w3, addr, block)
             | _ => None
             end) tr.

(** The transaction-count lookups of a trace, in order. *)
Definition tx_count_calls (tr : list event) : list (Web3 * string * string) :=
  omap (λ e, match e with
             | TxCountCall w3 addr block => Some (w3, addr, block)
             | _ => None
             end) tr.

(** Is the event a lookup of account data? *)
Definition is_rpc_call (e : event) : bool :=
  match e with
  | BalanceCall _ _ _ | TxCountCall _ _ _ => true
  | _ => false
  end.

(** The connectivity probes of a trace, in order. *)
Definition probes (tr : list event) : list Web3 :=
  omap (λ e, match e with Probe w3 => Some w3 | _ => None end) tr.

(** The record that the answers of the endpoint give for [addr] when it is
    fetched in world [w]: the [Ok] record of the two answers, or the [Err]
    record of the first call that fails. *)
Definition turn_record `{Outside} (w3 : Web3) (addr block : string)
    (w : World) : record :=
  match eth_get_balance w3 addr block w with
  | (Raised e, _) => Err e
  | (Returned bal, w1) =>
      match eth_get_transaction_count w3 addr block w1 with
      | (Raised e, _) => Err e
      | (Returned txs, _) => Ok bal txs
      end
  end.

(** ** A concrete outside world

    No endpoint can find the balance of ["0xBAD"], the transaction count
    of ["0xLAZY"] times out, and endpoint ["http://b"] sees a balance of 90
    for ["0xRICH"]; every other balance is 100 and every other transaction
    count is 5.  Endpoint ["http://down"] does not answer the probe.  The
    world counts the remote calls made so far. *)
#[local] Instance demo : Outside := {|
  World := nat;
  Float := nat;
  eth_get_balance w3 addr block w :=
    (if bool_decide (addr = "0xBAD") then Raised "account not found"
     else if bool_decide (addr = "0xRICH") && bool_decide (endpoint w3 = "http://b")
          then Returned 90
     else Returned 100, S w);
  eth_get_transaction_count w3 addr block w :=
    (if bool_decide (addr = "0xLAZY") then Raised "timed out" else Returned 5,
     S w);
  w3_is_connected w3 w := (negb (bool_decide (endpoint w3 = "http://down")), w);
  is_address a := String.prefix "0x" a;
  to_checksum_address a := a;
  utcnow_isoformat w := ("2024-01-01T00:00:00", w);
  time_time w := (w, w);
  round2_sub t1 t0 := (t1 - t0)%nat;
  json_dumps _ := "{}"
|}.

Definition demo_a : Web3 := {| endpoint := "http://a"; timeout := 30 |}.

Definition demo_start : @machine demo := @boot demo 0%nat.

Definition demo_args (rpc : string) (addrs : list string) : Namespace :=
  {| rpc_a := rpc; rpc_b := "http://b"; address := addrs;
     block_a := "latest"; block_b := "latest"; json := false;
     arg_timeout := 30 |}.


(** * Properties *)

(** ** Dictionaries *)

Section dict_facts.
Context {V : Type}.
Implicit Types (d : Dict.t V) (k : string) (v : V).

Lemma dict_get_Some_keys d k v : Dict.get d k = Some v → k ∈ Dict.keys d.
Proof.
  induction d as [|[k' v'] d IH]; cbn; [done|].
  case_decide; subst; [left | right; auto].
Qed.

Lemma dict_get_None_keys d k : Dict.get d k = None ↔ k ∉ Dict.keys d.
Proof.
  induction d as [|[k' v'] d IH]; cbn.
  - split; [intros _; apply not_elem_of_nil | done].
  - rewrite not_elem_of_cons, <- IH. case_decide; subst.
    + split; [done | by intros [? _]].
    + split; [done | by intros [_ ?]].
Qed.

Lemma dict_keys_is_Some d k : k ∈ Dict.keys d ↔ is_Some (Dict.get d k).
Proof.
  destruct (Dict.get d k) as [v|] eqn:E.
  - split; [eauto | intros _; by eapply dict_get_Some_keys].
  - apply dict_get_None_keys in E. split; [done | by intros [? [=]]].
Qed.

Lemma dict_get_set_eq d k v : Dict.get (Dict.set d k v) k = Some v.
Proof.
  induction d as [|[k' v'] d IH]; cbn; repeat (case_decide; cbn); done.
Qed.

Lemma dict_get_set_ne d k k' v :
  k ≠ k' → Dict.get (Dict.set d k v) k' = Dict.get d k'.
Proof.
  intros Hne. induction d as [|[k0 v0] d IH]; cbn.
  - rewrite decide_False by congruence. done.
  - destruct (decide (k = k0)) as [->|]; cbn.
    + rewrite !decide_False by congruence. done.
    + by rewrite IH.
Qed.

(** A key that is already bound keeps its place; a new key goes last. *)
Lemma dict_keys_set d k v :
  Dict.keys (Dict.set d k v)
  = if decide (k ∈ Dict.keys d) then Dict.keys d else Dict.keys d ++ [k].
Proof.
  induction d as [|[k0 v0] d IH]; cbn.
  - case_decide as E; [by apply elem_of_nil in E | done].
  - destruct (decide (k = k0)) as [->|Hne]; cbn.
    + rewrite decide_True; [done | left].
    + fold (Dict.keys d) in *. fold (Dict.keys (Dict.set d k v)).
      rewrite IH. destruct (decide (k ∈ Dict.keys d)) as [Hin|Hout].
      * rewrite decide_True; [done | by right].
      * rewrite decide_False; [done|]. rewrite not_elem_of_cons. done.
Qed.

Lemma dict_set_values d k v (P : V → Prop) :
  Forall (λ kv, P kv.2) d → P v → Forall (λ kv, P kv.2) (Dict.set d k v).
Proof.
  intros Hd Hv. induction Hd as [|[k0 v0] d H0 Hd IH]; cbn.
  - by repeat constructor.
  - case_decide; constructor; auto.
Qed.
End dict_facts.

(** ** Record equality *)

Lemma record_eqb_Ok_Err bal txs msg : record_eqb (Ok bal txs) (Err msg) = false.
Proof. reflexivity. Qed.

Lemma record_eqb_Err_Ok bal txs msg : record_eqb (Err msg) (Ok bal txs) = false.
Proof. reflexivity. Qed.

Lemma record_eqb_Err_Err m1 m2 :
  record_eqb (Err m1) (Err m2) = bool_decide (m1 = m2).
Proof.
  unfold record_eqb, Dict.eqb, Err; cbn. by rewrite andb_true_r.
Qed.

Lemma record_eqb_Ok_Ok b1 n1 b2 n2 :
  record_eqb (Ok b1 n1) (Ok b2 n2) = bool_decide (b1 = b2) && bool_decide (n1 = n2).
Proof.
  unfold record_eqb, Dict.eqb, Ok; cbn. by rewrite andb_true_r.
Qed.

Lemma is_account_record_inv r :
  is_account_record r = true →
  (∃ bal txs, r = Ok bal txs) ∨ (∃ msg, r = Err msg).
Proof.
  destruct r as [|[k1 [n1|s1]] [|[k2 [n2|s2]] [|? ?]]]; cbn; try done.
  - intros [->%bool_decide_eq_true ->%bool_decide_eq_true]%andb_true_iff.
    left. by do 2 eexists.
  - intros ->%bool_decide_eq_true. right. by eexists.
Qed.

(** On account records, Python's [==] is equality of the records. *)
Lemma record_eqb_eq r1 r2 :
  is_account_record r1 = true → is_account_record r2 = true →
  record_eqb r1 r2 = true ↔ r1 = r2.
Proof.
  intros [(b1 & n1 & ->)|(m1 & ->)]%is_account_record_inv
         [(b2 & n2 & ->)|(m2 & ->)]%is_account_record_inv.
  - rewrite record_eqb_Ok_Ok, andb_true_iff, !bool_decide_eq_true.
    split; [by intros [-> ->] | by intros [= -> ->]].
  - by rewrite record_eqb_Ok_Err.
  - by rewrite record_eqb_Err_Ok.
  - rewrite record_eqb_Err_Err, bool_decide_eq_true.
    split; [by intros -> | by intros [= ->]].
Qed.

(** An account record is never equal to the empty dict that [get] falls
    back to, in either direction. *)
Lemma record_eqb_empty_r r :
  is_account_record r = true → record_eqb r Dict.empty = false.
Proof. by intros [(b & n & ->)|(m & ->)]%is_account_record_inv. Qed.

Lemma record_eqb_empty_l r :
  is_account_record r = true → record_eqb Dict.empty r = false.
Proof. by intros [(b & n & ->)|(m & ->)]%is_account_record_inv. Qed.

Lemma is_state_map_get s k r :
  is_state_map s = true → Dict.get s k = Some r → is_account_record r = true.
Proof.
  unfold is_state_map. rewrite forallb_forall. intros Hs.
  induction s as [|[k' r'] s IH]; cbn; [done|].
  case_decide; subst.
  - intros [= ->]. apply (Hs (k', r)). by left.
  - apply IH. intros x Hx. apply Hs. by right.
Qed.

(** ** The reconciler as a filter over the sorted key union *)

Lemma foldl_collect {A} (p : A → bool) (l acc : list A) :
  foldl (λ diffs x, if p x then diffs ++ [x] else diffs) acc l
  = acc ++ filter (λ x, p x = true) l.
Proof.
  revert acc. induction l as [|x l IH]; intros acc.
  - cbn. by rewrite app_nil_r.
  - rewrite filter_cons. cbn [foldl]. rewrite IH. destruct (p x) eqn:E.
    + rewrite decide_True by done. by rewrite <- app_assoc.
    + rewrite decide_False by (by intros ?). done.
Qed.

Lemma compare_states_filter a b :
  compare_states a b
  = filter (λ addr, differs a b addr = true) (sorted (elements (key_union a b))).
Proof. unfold compare_states. by rewrite foldl_collect. Qed.

Lemma elem_of_key_union a b k :
  k ∈ key_union a b ↔ k ∈ Dict.keys a ∨ k ∈ Dict.keys b.
Proof. unfold key_union. by rewrite elem_of_union, !elem_of_list_to_set. Qed.

Lemma elem_of_sorted l x : x ∈ sorted l ↔ x ∈ l.
Proof. unfold sorted. by rewrite merge_sort_Permutation. Qed.

Lemma elem_of_compare_states a b addr :
  addr ∈ compare_states a b
  ↔ (addr ∈ Dict.keys a ∨ addr ∈ Dict.keys b) ∧ differs a b addr = true.
Proof.
  rewrite compare_states_filter, list_elem_of_filter, elem_of_sorted.
  rewrite elem_of_elements, elem_of_key_union. tauto.
Qed.

Lemma StronglySorted_filter {A} (R : relation A) (P : A → Prop)
    `{∀ x, Decision (P x)} l :
  StronglySorted R l → StronglySorted R (filter P l).
Proof.
  induction 1 as [|x l Hl IH Hx]; [constructor|].
  rewrite filter_cons. case_decide; [|done].
  constructor; [done|].
  apply Forall_forall. intros y [_ Hy]%list_elem_of_filter.
  by eapply Forall_forall in Hx.
Qed.

Lemma StronglySorted_strict {A} (R : relation A) `{!AntiSymm (=) R} l :
  StronglySorted R l → NoDup l → StronglySorted (strict R) l.
Proof.
  induction 1 as [|x l Hl IH Hx]; intros Hnd; [constructor|].
  apply NoDup_cons in Hnd as [Hxl Hnd]. constructor; [auto|].
  apply Forall_forall. intros y Hy. split.
  - by eapply Forall_forall in Hx.
  - intros Hyx. eapply Forall_forall in Hx; [|done].
    (* an equal element further down the list would be a duplicate *)
    assert (x = y) as -> by (by apply (anti_symm R)). done.
Qed.

Lemma compare_states_ascending a b :
  StronglySorted (strict String.le) (compare_states a b).
Proof.
  rewrite compare_states_filter. apply StronglySorted_filter.
  apply StronglySorted_strict; [apply _ | |].
  - apply StronglySorted_merge_sort; apply _.
  - unfold sorted. rewrite merge_sort_Permutation. apply NoDup_elements.
Qed.

Lemma differs_get a b addr ra rb :
  Dict.get a addr = Some ra → Dict.get b addr = Some rb →
  differs a b addr = negb (record_eqb ra rb).
Proof. unfold differs, Dict.get_default. by intros -> ->. Qed.

(** On state maps the loop test is: the two lookups give different
    results, a missing entry being a result of its own. *)
Lemma differs_lookup a b addr :
  is_state_map a = true → is_state_map b = true →
  differs a b addr = true ↔ Dict.get a addr ≠ Dict.get b addr.
Proof.
  intros Ha Hb. unfold differs, Dict.get_default.
  destruct (Dict.get a addr) as [ra|] eqn:Ea;
    destruct (Dict.get b addr) as [rb|] eqn:Eb; cbn [default].
  - apply (is_state_map_get _ _ _ Ha) in Ea.
    apply (is_state_map_get _ _ _ Hb) in Eb.
    rewrite negb_true_iff, <- not_true_iff_false, (record_eqb_eq _ _ Ea Eb).
    split; [congruence | intros Hne ->; by apply Hne].
  - apply (is_state_map_get _ _ _ Ha) in Ea.
    by rewrite record_eqb_empty_r.
  - apply (is_state_map_get _ _ _ Hb) in Eb.
    by rewrite record_eqb_empty_l.
  - by cbn.
Qed.

(** ** Claims about the reconciler *)

(** C1, as stated, fails: two [Err] records with the same message are
    equal dicts, so the address is left out of the diff list. *)
Lemma equal_errors_not_reported :
  ¬ (∀ (a b : state) addr ma mb,
       Dict.get a addr = Some (Err ma) → Dict.get b addr = Some (Err mb) →
       addr ∈ compare_states a b).
Proof.
  intros H.
  specialize (H [("0xA", Err "timeout")] [("0xA", Err "timeout")]
                "0xA" "timeout" "timeout" eq_refl eq_refl).
  vm_compute in H. by apply elem_of_nil in H.
Qed.

(** C1, amended: an address at which both state maps hold an [Err] record
    is in the diff list exactly when the two error messages differ. *)
Theorem errors_reported_iff_messages_differ (a b : state) addr ma mb :
  Dict.get a addr = Some (Err ma) → Dict.get b addr = Some (Err mb) →
  addr ∈ compare_states a b ↔ ma ≠ mb.
Proof.
  intros Ha Hb. rewrite elem_of_compare_states, (differs_get _ _ _ _ _ Ha Hb).
  rewrite record_eqb_Err_Err, negb_true_iff, bool_decide_eq_false.
  split; [tauto|]. intros Hne. split; [|done].
  left. by eapply dict_get_Some_keys.
Qed.

Lemma errors_reported_iff_messages_differ_witness :
  "0xA" ∈ compare_states [("0xA", Err "timeout")] [("0xA", Err "refused")].
Proof.
  apply (errors_reported_iff_messages_differ _ _ "0xA" "timeout" "refused");
    [reflexivity | reflexivity | discriminate].
Defined.

(** C2: an address at which one state map holds an [Ok] record and the
    other an [Err] record is in the diff list, whatever the message. *)
Theorem ok_against_error_reported (a b : state) addr bal txs msg :
  (Dict.get a addr = Some (Ok bal txs) ∧ Dict.get b addr = Some (Err msg))
  ∨ (Dict.get a addr = Some (Err msg) ∧ Dict.get b addr = Some (Ok bal txs)) →
  addr ∈ compare_states a b.
Proof.
  intros [[Ha Hb]|[Ha Hb]]; apply elem_of_compare_states;
    rewrite (differs_get _ _ _ _ _ Ha Hb); split; try done;
    left; by eapply dict_get_Some_keys.
Qed.

Lemma ok_against_error_reported_witness :
  "0xA" ∈ compare_states [("0xA", Ok 100 5)] [("0xA", Err "")].
Proof.
  apply (ok_against_error_reported _ _ "0xA" 100 5 "").
  left. split; reflexivity.
Defined.

(** C3: on state maps the diff list holds exactly the addresses of the
    union of the two key sets whose entries differ, in strictly ascending
    order of the address strings; an address bound on one side only is
    listed, an address bound on neither side is not. *)
Theorem compare_states_spec (a b : state) :
  is_state_map a = true → is_state_map b = true →
  (∀ addr, addr ∈ compare_states a b
           ↔ (addr ∈ Dict.keys a ∨ addr ∈ Dict.keys b)
             ∧ Dict.get a addr ≠ Dict.get b addr)
  ∧ StronglySorted (strict String.le) (compare_states a b)
  ∧ (∀ addr, is_Some (Dict.get a addr) → Dict.get b addr = None →
             addr ∈ compare_states a b)
  ∧ (∀ addr, Dict.get a addr = None → is_Some (Dict.get b addr) →
             addr ∈ compare_states a b)
  ∧ (∀ addr, Dict.get a addr = None → Dict.get b addr = None →
             addr ∉ compare_states a b).
Proof.
  intros Ha Hb.
  assert (∀ addr, addr ∈ compare_states a b
           ↔ (addr ∈ Dict.keys a ∨ addr ∈ Dict.keys b)
             ∧ Dict.get a addr ≠ Dict.get b addr) as Hspec.
  { intros addr. by rewrite elem_of_compare_states, differs_lookup. }
  split; [done|]. split; [apply compare_states_ascending|].
  repeat split.
  - intros addr Hsome Hnone. apply Hspec. split.
    + left. by apply dict_keys_is_Some.
    + rewrite Hnone. by destruct Hsome as [? ->].
  - intros addr Hnone Hsome. apply Hspec. split.
    + right. by apply dict_keys_is_Some.
    + rewrite Hnone. by destruct Hsome as [? ->].
  - intros addr Hna Hnb [_ Hne]%Hspec. congruence.
Qed.

Lemma compare_states_spec_witness :
  compare_states [("0xB", Ok 1 2); ("0xA", Err "boom")]
                 [("0xA", Err "boom"); ("0xC", Ok 1 1)] = ["0xB"; "0xC"]
  ∧ StronglySorted (strict String.le)
      (compare_states [("0xB", Ok 1 2); ("0xA", Err "boom")]
                      [("0xA", Err "boom"); ("0xC", Ok 1 1)]).
Proof.
  split; [by vm_compute|].
  apply (compare_states_spec [("0xB", Ok 1 2); ("0xA", Err "boom")]
                             [("0xA", Err "boom"); ("0xC", Ok 1 1)]);
    reflexivity.
Defined.

(** The condition of C3 on the entries is needed: a dict that binds an
    address to the empty dict is taken for one that does not bind it. *)
Example empty_record_matches_absence :
  compare_states [("0xA", Dict.empty)] Dict.empty = [].
Proof. by vm_compute. Qed.

(** Two state maps with the same keys and the same [Ok] record under each
    key have nothing to report. *)
Lemma compare_states_identical (a b : state) :
  (∀ addr, addr ∈ Dict.keys a ↔ addr ∈ Dict.keys b) →
  (∀ addr, addr ∈ Dict.keys a →
     ∃ bal txs, Dict.get a addr = Some (Ok bal txs)
                ∧ Dict.get b addr = Some (Ok bal txs)) →
  compare_states a b = [].
Proof.
  intros Hkeys Hok.
  destruct (compare_states a b) as [|addr diffs] eqn:E; [done|]. exfalso.
  assert (addr ∈ compare_states a b) as [Hin Hdiff]%elem_of_compare_states
    by (rewrite E; left).
  assert (addr ∈ Dict.keys a) as (bal & txs & Ha & Hb)%Hok
    by (destruct Hin; [done | by apply Hkeys]).
  rewrite (differs_get _ _ _ _ _ Ha Hb), record_eqb_Ok_Ok in Hdiff.
  by rewrite !bool_decide_true in Hdiff.
Qed.

(** ** The fetcher *)

Section fetcher_facts.
Context `{Outside}.
Implicit Types (m : machine) (results : state).

(** One turn of the loop, by the answers of the endpoint. *)
Lemma analyze_one_run w3 block results addr m :
  analyze_one w3 block results addr m
  = match eth_get_balance w3 addr block (world m) with
    | (Raised e, w1) =>
        (Done (Dict.set results addr (Err e)),
         {| world := w1;
            trace := trace m ++ [Print (progress_line addr);
                                 BalanceCall w3 addr block] |})
    | (Returned bal, w1) =>
        let tr := trace m ++ [Print (progress_line addr);
                              BalanceCall w3 addr block;
                              TxCountCall w3 addr block] in
        match eth_get_transaction_count w3 addr block w1 with
        | (Raised e, w2) =>
            (Done (Dict.set results addr (Err e)),
             {| world := w2; trace := tr |})
        | (Returned txs, w2) =>
            (Done (Dict.set results addr (Ok bal txs)),
             {| world := w2; trace := tr |})
        end
    end.
Proof.
  unfold analyze_one, try_except, fetch_balance, fetch_tx_count, remote,
    print, emit, mbind, M_bind, mret, M_ret, progress_line; cbn.
  destruct (eth_get_balance w3 addr block (world m)) as [[bal|e] w1]; cbn.
  - destruct (eth_get_transaction_count w3 addr block w1) as [[txs|e] w2];
      cbn; by rewrite <- !app_assoc.
  - by rewrite <- !app_assoc.
Qed.

Lemma for_fold_app {A B} (body : B → A → M B) l1 l2 acc m :
  for_fold body (l1 ++ l2) acc m
  = match for_fold body l1 acc m with
    | (Done acc', m') => for_fold body l2 acc' m'
    | (Raise e, m') => (Raise e, m')
    | (SysExit code, m') => (SysExit code, m')
    end.
Proof.
  revert acc m. induction l1 as [|x l1 IH]; intros acc m; [done|].
  cbn. unfold mbind, M_bind. destruct (body acc x m) as [[acc'|e|code] m1]; auto.
Qed.

(** One turn always completes: it binds [addr] to an account record,
    prints the notice, calls for the balance and possibly goes on with
    further network calls. *)
Lemma analyze_one_step w3 block results addr m :
  ∃ r w' evs,
    analyze_one w3 block results addr m
    = (Done (Dict.set results addr r),
       {| world := w';
          trace := trace m ++ Print (progress_line addr)
                             :: BalanceCall w3 addr block :: evs |})
    ∧ is_account_record r = true
    ∧ stdout evs = [].
Proof.
  rewrite analyze_one_run.
  destruct (eth_get_balance w3 addr block (world m)) as [[bal|e] w1].
  - destruct (eth_get_transaction_count w3 addr block w1) as [[txs|e] w2];
      eexists _, _, [TxCountCall w3 addr block]; cbn; done.
  - eexists _, _, []; done.
Qed.
End fetcher_facts.

(** ** Key order of a dict filled in a loop *)

Lemma dict_keys_set_add_key {V} (d : Dict.t V) k v :
  Dict.keys (Dict.set d k v) = add_key (Dict.keys d) k.
Proof. apply dict_keys_set. Qed.

Lemma elem_of_add_key ks k x : x ∈ add_key ks k ↔ x ∈ ks ∨ x = k.
Proof.
  unfold add_key. case_decide as Hk.
  - split; [by left | by intros [?| ->]].
  - by rewrite elem_of_app, list_elem_of_singleton.
Qed.

Lemma NoDup_add_key ks k : NoDup ks → NoDup (add_key ks k).
Proof.
  intros Hks. unfold add_key. case_decide as Hk; [done|].
  apply NoDup_app. split_and!; [done | | apply NoDup_singleton].
  by intros x Hx ->%list_elem_of_singleton.
Qed.

Lemma elem_of_foldl_add_key l ks x :
  x ∈ foldl add_key ks l ↔ x ∈ ks ∨ x ∈ l.
Proof.
  revert ks. induction l as [|k l IH]; intros ks; cbn.
  - rewrite elem_of_nil. tauto.
  - rewrite IH, elem_of_add_key, elem_of_cons. tauto.
Qed.

Lemma NoDup_foldl_add_key l ks : NoDup ks → NoDup (foldl add_key ks l).
Proof.
  revert ks. induction l as [|k l IH]; intros ks Hks; cbn; [done|].
  by apply IH, NoDup_add_key.
Qed.

Lemma foldl_add_key_NoDup l ks : NoDup (ks ++ l) → foldl add_key ks l = ks ++ l.
Proof.
  revert ks. induction l as [|k l IH]; intros ks Hnd; cbn.
  - by rewrite app_nil_r.
  - assert (k ∉ ks) as Hk.
    { apply NoDup_app in Hnd as (_ & Hdisj & _). intros Hin.
      apply (Hdisj k Hin). left. }
    unfold add_key at 2. rewrite decide_False by done.
    rewrite IH; rewrite <- app_assoc; done.
Qed.

Lemma elem_of_insertion_order l x : x ∈ insertion_order l ↔ x ∈ l.
Proof.
  unfold insertion_order. rewrite elem_of_foldl_add_key, elem_of_nil. tauto.
Qed.

Lemma NoDup_insertion_order l : NoDup (insertion_order l).
Proof. apply NoDup_foldl_add_key, NoDup_nil_2. Qed.

Lemma insertion_order_NoDup l : NoDup l → insertion_order l = l.
Proof. intros Hl. by apply (foldl_add_key_NoDup l []). Qed.

Lemma is_state_map_set (s : state) k r :
  is_state_map s = true → is_account_record r = true →
  is_state_map (Dict.set s k r) = true.
Proof.
  unfold is_state_map. intros Hs Hr.
  induction s as [|[k' r'] s IH]; cbn in *.
  - by rewrite Hr.
  - apply andb_true_iff in Hs as [Hr' Hs].
    case_decide; cbn; rewrite ?Hr, ?Hr', ?Hs, ?IH; done.
Qed.

(** ** The loop of the fetcher *)

Section fetcher_loop.
Context `{Outside}.
Implicit Types (m : machine) (results : state).

Lemma stdout_app tr1 tr2 : stdout (tr1 ++ tr2) = stdout tr1 ++ stdout tr2.
Proof. apply omap_app. Qed.

(** The loop of [analyze_accounts], entered with any [results]: it runs
    to the end of the list whatever the endpoint answers. *)
Lemma analyze_loop_spec w3 block l results m :
  ∃ res m',
    for_fold (analyze_one w3 block) l results m = (Done res, m')
    ∧ Dict.keys res = foldl add_key (Dict.keys results) l
    ∧ (is_state_map results = true → is_state_map res = true)
    ∧ (∀ x, x ∉ l → Dict.get res x = Dict.get results x)
    ∧ stdout (trace m') = stdout (trace m) ++ (progress_line <$> l)
    ∧ ∃ evs, trace m' = trace m ++ evs
             ∧ ∀ x, x ∈ l → BalanceCall w3 x block ∈ evs.
Proof.
  revert results m. induction l as [|addr l IH]; intros results m.
  - exists results, m. cbn. rewrite app_nil_r. split_and!; try done.
    exists []. rewrite app_nil_r. split; [done|]. by intros x ?%elem_of_nil.
  - destruct (analyze_one_step w3 block results addr m)
      as (r & w1 & evs1 & Hrun & Hr & Hout).
    cbn [for_fold]. unfold mbind, M_bind. rewrite Hrun.
    match goal with |- context [for_fold _ l ?acc ?m1] =>
      destruct (IH acc m1) as (res & m' & -> & Hkeys & Hmap & Hget & Hso
                               & evs & Htr & Hcalls) end.
    exists res, m'. cbn [trace] in *. split_and!.
    + done.
    + by rewrite Hkeys, dict_keys_set_add_key.
    + intros Hres. by apply Hmap, is_state_map_set.
    + intros x [Hx Hxl]%not_elem_of_cons.
      rewrite Hget by done. by apply dict_get_set_ne.
    + rewrite Hso, stdout_app. unfold stdout in *. cbn.
      rewrite Hout, <- app_assoc. done.
    + eexists. rewrite Htr, <- app_assoc. split; [done|].
      intros x [->|Hx]%elem_of_cons.
      * apply elem_of_app. left. right. left.
      * apply elem_of_app. right. auto.
Qed.

(** A turn in which one of the two calls fails binds the address to the
    error of that call. *)
Lemma analyze_one_failure w3 block results addr m e :
  fetch_failure w3 addr block (world m) = Some e →
  ∃ m', analyze_one w3 block results addr m
        = (Done (Dict.set results addr (Err e)), m').
Proof.
  unfold fetch_failure. rewrite analyze_one_run.
  destruct (eth_get_balance w3 addr block (world m)) as [[bal|e1] w1].
  - destruct (eth_get_transaction_count w3 addr block w1) as [[txs|e2] w2];
      [done|]. intros [= ->]. by eexists.
  - intros [= ->]. by eexists.
Qed.

Lemma state_map_lookup (s : state) x :
  is_state_map s = true → x ∈ Dict.keys s →
  ∃ r, Dict.get s x = Some r ∧ is_account_record r = true.
Proof.
  intros Hs [r Hr]%dict_keys_is_Some. exists r. split; [done|].
  by eapply is_state_map_get.
Qed.
End fetcher_loop.

(** ** Claims about the fetcher *)

(** C4, as stated, fails: when the balance lookup raises, the
    transaction-count lookup is not attempted. *)
Lemma tx_count_skipped_after_balance_failure :
  ¬ (∀ (O : Outside) w3 block results addr w,
       let tr := trace (@analyze_one O w3 block results addr (boot w)).2 in
       BalanceCall w3 addr block ∈ tr ∧ TxCountCall w3 addr block ∈ tr).
Proof.
  intros Hclaim.
  destruct (Hclaim demo demo_a "latest" Dict.empty "0xBAD" 0%nat) as [_ Htx].
  vm_compute in Htx.
  repeat (apply elem_of_cons in Htx as [Htx|Htx]; [discriminate Htx|]).
  by apply elem_of_nil in Htx.
Qed.

(** C4, amended: when one address is fetched the balance lookup is always
    attempted and the transaction-count lookup is attempted only after the
    balance lookup has returned; the turn binds the address to a single
    record, the [Err] of the first call that failed, or the [Ok] of the two
    answers. *)
Theorem analyze_one_calls `{Outside} w3 block (results : state) addr m :
  ∃ r m' evs,
    analyze_one w3 block results addr m = (Done (Dict.set results addr r), m')
    ∧ trace m' = trace m ++ Print (progress_line addr) :: evs
    ∧ match eth_get_balance w3 addr block (world m) with
      | (Raised e, _) => evs = [BalanceCall w3 addr block] ∧ r = Err e
      | (Returned bal, w1) =>
          evs = [BalanceCall w3 addr block; TxCountCall w3 addr block]
          ∧ r = match (eth_get_transaction_count w3 addr block w1).1 with
                | Raised e => Err e
                | Returned txs => Ok bal txs
                end
      end.
Proof.
  rewrite analyze_one_run.
  destruct (eth_get_balance w3 addr block (world m)) as [[bal|e] w1].
  - destruct (eth_get_transaction_count w3 addr block w1) as [[txs|e] w2];
      cbn; by eexists _, _, _.
  - by eexists _, _, _.
Qed.

Section fetcher_last_turn.
Context `{Outside}.
Implicit Types (m : machine) (results : state).

(** A turn binds the address to the record of the endpoint's answers. *)
Lemma analyze_one_record w3 block results addr m :
  ∃ m', analyze_one w3 block results addr m
        = (Done (Dict.set results addr (turn_record w3 addr block (world m))),
           m').
Proof.
  rewrite analyze_one_run. unfold turn_record.
  destruct (eth_get_balance w3 addr block (world m)) as [[bal|e] w1].
  - destruct (eth_get_transaction_count w3 addr block w1) as [[txs|e] w2];
      by eexists.
  - by eexists.
Qed.

(** The map the loop returns binds an address to the record of its last
    turn. *)
Lemma analyze_last_turn w3 block l1 x l2 results m rx mx :
  for_fold (analyze_one w3 block) l1 results m = (Done rx, mx) →
  x ∉ l2 →
  ∃ res m',
    for_fold (analyze_one w3 block) (l1 ++ x :: l2) results m = (Done res, m')
    ∧ Dict.get res x = Some (turn_record w3 x block (world mx)).
Proof.
  intros Hl1 Hx.
  destruct (analyze_one_record w3 block rx x mx) as [m2 Hone].
  destruct (analyze_loop_spec w3 block l2
              (Dict.set rx x (turn_record w3 x block (world mx))) m2)
    as (res & m' & Hl2 & _ & _ & Hget & _).
  exists res, m'. split.
  - rewrite for_fold_app, Hl1. cbn [for_fold]. unfold mbind, M_bind.
    by rewrite Hone.
  - rewrite Hget by done. apply dict_get_set_eq.
Qed.
End fetcher_last_turn.

(** C7: a failing call while [addr] is fetched binds [addr], and no other
    address, to an [Err] record; the loop then goes on, so that every
    address of the list, those after [addr] included, is fetched and has an
    account record in the map that is returned.  In that map an address
    that is not fetched again keeps the record it had before the failure,
    and an address fetched later holds its own record: the one the answers
    of the endpoint give at its own last turn. *)
Theorem fetch_failure_is_isolated `{Outside} w3 block pre addr post m res1 m1 e :
  analyze_accounts w3 pre block m = (Done res1, m1) →
  fetch_failure w3 addr block (world m1) = Some e →
  ∃ res2 m2 res m',
    analyze_accounts w3 (pre ++ [addr]) block m = (Done res2, m2)
    ∧ Dict.get res2 addr = Some (Err e)
    ∧ (∀ x, x ≠ addr → Dict.get res2 x = Dict.get res1 x)
    ∧ analyze_accounts w3 (pre ++ addr :: post) block m = (Done res, m')
    ∧ (∀ x, x ∈ pre ++ addr :: post →
         ∃ r, Dict.get res x = Some r ∧ is_account_record r = true)
    ∧ (∃ evs, trace m' = trace m2 ++ evs
              ∧ ∀ x, x ∈ post → BalanceCall w3 x block ∈ evs)
    ∧ (addr ∉ post → Dict.get res addr = Some (Err e))
    ∧ (∀ x, x ≠ addr → x ∉ post → Dict.get res x = Dict.get res1 x)
    ∧ (∀ p1 x p2, post = p1 ++ x :: p2 → x ∉ p2 →
         ∃ rx mx,
           analyze_accounts w3 (pre ++ addr :: p1) block m = (Done rx, mx)
           ∧ Dict.get res x = Some (turn_record w3 x block (world mx))).
Proof.
  unfold analyze_accounts. intros Hpre Hfail.
  destruct (analyze_one_failure w3 block res1 addr m1 e Hfail) as [m2 Hone].
  destruct (analyze_loop_spec w3 block post (Dict.set res1 addr (Err e)) m2)
    as (res & m' & Hpost & _ & _ & Hget & _ & Hcalls).
  assert (for_fold (analyze_one w3 block) (pre ++ [addr]) Dict.empty m
          = (Done (Dict.set res1 addr (Err e)), m2)) as Hturn.
  { rewrite for_fold_app, Hpre. cbn. unfold mbind, M_bind. by rewrite Hone. }
  assert (for_fold (analyze_one w3 block) (pre ++ addr :: post) Dict.empty m
          = (Done res, m')) as Hall.
  { by rewrite (cons_middle addr pre post), app_assoc, for_fold_app, Hturn. }
  exists (Dict.set res1 addr (Err e)), m2, res, m'. split_and!; try done.
  - apply dict_get_set_eq.
  - intros x Hx. by apply dict_get_set_ne.
  - destruct (analyze_loop_spec w3 block (pre ++ addr :: post) Dict.empty m)
      as (res' & m'' & Hall' & Hkeys & Hmap & _).
    rewrite Hall in Hall'. injection Hall' as <- <-.
    intros x Hx. apply state_map_lookup; [by apply Hmap|].
    rewrite Hkeys. apply elem_of_foldl_add_key. by right.
  - intros Hout. rewrite Hget by done. apply dict_get_set_eq.
  - intros x Hne Hout. rewrite Hget by done. by apply dict_get_set_ne.
  - intros p1 x p2 -> Hx.
    destruct (analyze_loop_spec w3 block (pre ++ addr :: p1) Dict.empty m)
      as (rx & mx & Hrx & _).
    destruct (analyze_last_turn w3 block (pre ++ addr :: p1) x p2
                Dict.empty m rx mx Hrx Hx) as (res' & m'' & Hall' & Hlast).
    exists rx, mx. split; [done|].
    rewrite <- app_assoc in Hall'. cbn [app] in Hall'.
    rewrite Hall in Hall'. by injection Hall' as <- <-.
Qed.

Lemma fetch_failure_is_isolated_witness :
  ∃ res m',
    @analyze_accounts demo demo_a (["0xA"] ++ "0xBAD" :: ["0xB"; "0xC"])
      "latest" demo_start = (Done res, m')
    ∧ Dict.get res "0xA" = Some (Ok 100 5)
    ∧ Dict.get res "0xBAD" = Some (Err "account not found")
    ∧ Dict.get res "0xB" = Some (Ok 100 5)
    ∧ Dict.get res "0xC" = Some (Ok 100 5).
Proof.
  destruct (@fetch_failure_is_isolated demo demo_a "latest"
              ["0xA"] "0xBAD" ["0xB"; "0xC"] demo_start
              [("0xA", Ok 100 5)]
              (@Build_machine demo 2%nat
                 [Print (progress_line "0xA");
                  BalanceCall demo_a "0xA" "latest";
                  TxCountCall demo_a "0xA" "latest"])
              "account not found")
    as (res2 & m2 & res & m' & _ & _ & _ & Hall & _ & _ & Herr & Hold & Hown).
  - reflexivity.
  - reflexivity.
  - exists res, m'. split; [exact Hall|]. split_and!.
    + rewrite (Hold "0xA"); [reflexivity | discriminate |].
      intros Hin. repeat (apply elem_of_cons in Hin as [Hin|Hin];
                          [discriminate Hin|]). by apply elem_of_nil in Hin.
    + apply Herr. intros Hin.
      repeat (apply elem_of_cons in Hin as [Hin|Hin]; [discriminate Hin|]).
      by apply elem_of_nil in Hin.
    + destruct (Hown [] "0xB" ["0xC"] eq_refl) as (rx & mx & Hrx & ->).
      { intros Hin. apply elem_of_cons in Hin as [Hin|Hin];
          [discriminate Hin | by apply elem_of_nil in Hin]. }
      vm_compute in Hrx. injection Hrx as <- <-. reflexivity.
    + destruct (Hown ["0xB"] "0xC" [] eq_refl) as (rx & mx & Hrx & ->).
      { apply not_elem_of_nil. }
      vm_compute in Hrx. injection Hrx as <- <-. reflexivity.
Defined.

(** C10: the fetcher always returns, and the map it returns has one key
    per address of the list and no other, in the order in which the
    addresses first occur in the list (the list itself when no address is
    repeated); every value is an [Ok] record or an [Err] record. *)
Theorem analyze_accounts_keys_and_records `{Outside} w3 addresses block m :
  ∃ res m',
    analyze_accounts w3 addresses block m = (Done res, m')
    ∧ Dict.keys res = insertion_order addresses
    ∧ NoDup (Dict.keys res)
    ∧ (∀ x, x ∈ Dict.keys res ↔ x ∈ addresses)
    ∧ (NoDup addresses → Dict.keys res = addresses)
    ∧ ∀ x r, Dict.get res x = Some r →
        (∃ bal txs, r = Ok bal txs) ∨ (∃ msg, r = Err msg).
Proof.
  destruct (analyze_loop_spec w3 block addresses Dict.empty m)
    as (res & m' & Hrun & Hkeys & Hmap & _).
  exists res, m'. change (foldl add_key (Dict.keys Dict.empty) addresses)
    with (insertion_order addresses) in Hkeys.
  split_and!; [done | done | | | |].
  - rewrite Hkeys. apply NoDup_insertion_order.
  - intros x. rewrite Hkeys. apply elem_of_insertion_order.
  - intros Hnd. rewrite Hkeys. by apply insertion_order_NoDup.
  - intros x r Hr. apply is_account_record_inv.
    eapply is_state_map_get; [by apply Hmap | done].
Qed.

Lemma analyze_accounts_keys_and_records_witness :
  ∃ res m',
    @analyze_accounts demo demo_a ["0xB"; "0xBAD"; "0xA"] "latest" demo_start
    = (Done res, m')
    ∧ Dict.keys res = ["0xB"; "0xBAD"; "0xA"].
Proof.
  destruct (@analyze_accounts_keys_and_records demo demo_a
              ["0xB"; "0xBAD"; "0xA"] "latest" demo_start)
    as (res & m' & Hrun & _ & _ & _ & Hkeys & _).
  exists res, m'. split; [exact Hrun|]. apply Hkeys.
  apply (bool_decide_unpack _). vm_compute. exact I.
Defined.

(** ** The driver *)

Section driver_facts.
Context `{Outside}.
Implicit Types (m : machine) (args : Namespace).

Lemma startswith_url_ok rpc :
  startswith rpc ["http://"; "https://"] = url_ok rpc.
Proof. unfold startswith, url_ok. cbn. by rewrite orb_false_r. Qed.

Lemma for_each_print {A} (f : A → string) (l : list A) m :
  for_each (λ x, print (f x)) l m
  = (Done (), {| world := world m; trace := trace m ++ (Print <$> (f <$> l)) |}).
Proof.
  unfold for_each. revert m. induction l as [|x l IH]; intros m; cbn.
  - rewrite app_nil_r. by destruct m.
  - unfold mbind, M_bind, print, emit. rewrite IH. cbn.
    by rewrite <- app_assoc.
Qed.

(** The loop over [args.address] when every address is valid. *)
Lemma address_loop_valid l acc m :
  forallb is_address l = true →
  for_fold check_address l acc m
  = (Done (acc ++ (to_checksum_address <$> l)), m).
Proof.
  revert acc. induction l as [|a l IH]; intros acc; cbn.
  - intros _. by rewrite app_nil_r.
  - intros [Ha Hl]%andb_true_iff.
    unfold mbind, M_bind, check_address at 1. rewrite Ha. cbn.
    rewrite IH by done. by rewrite <- app_assoc.
Qed.

(** The same loop when some address is invalid: the first such address
    ends the run. *)
Lemma address_loop_invalid l acc m :
  forallb is_address l = false →
  ∃ a, a ∈ l ∧ is_address a = false
       ∧ for_fold check_address l acc m
         = (SysExit 1, emit (Print ("❌ Invalid address: " +:+ a)) m).
Proof.
  revert acc. induction l as [|a l IH]; intros acc; cbn; [done|].
  unfold mbind, M_bind, check_address at 1.
  destruct (is_address a) eqn:Ha; cbn.
  - intros Hl. destruct (IH (acc ++ [to_checksum_address a]) Hl)
      as (a' & Hin & Ha' & Hrun).
    exists a'. split_and!; [by right | done | done].
  - intros _. exists a. split_and!; [by left | done | done].
Qed.

(** The loop over the two URLs. *)
Lemma url_loop_run args m :
  for_each check_rpc_url [rpc_a args; rpc_b args] m
  = if url_ok (rpc_a args) && url_ok (rpc_b args) then (Done (), m)
    else (SysExit 1,
          emit (Print ("❌ Invalid RPC URL: "
                       +:+ (if url_ok (rpc_a args) then rpc_b args
                            else rpc_a args))) m).
Proof.
  unfold for_each, check_rpc_url. cbn [for_fold].
  unfold mbind, M_bind. rewrite !startswith_url_ok.
  destruct (url_ok (rpc_a args)); cbn; [|done].
  destruct (url_ok (rpc_b args)); cbn; done.
Qed.

(** A malformed URL ends the run at once: one line is printed, nothing
    else happens. *)
Lemma preflight_bad_url args w :
  url_ok (rpc_a args) && url_ok (rpc_b args) = false →
  preflight args (boot w)
  = (SysExit 1,
     {| world := w;
        trace := [Print ("❌ Invalid RPC URL: "
                         +:+ (if url_ok (rpc_a args) then rpc_b args
                              else rpc_a args))] |}).
Proof.
  intros Hurl. unfold preflight.
  unfold mbind at 1, M_bind at 1. by rewrite url_loop_run, Hurl.
Qed.

(** When no check fails, [preflight] hands over the normalised addresses
    and the two clients, having made the two probes and printed
    nothing. *)
Lemma preflight_pass args w :
  preflight_ok args w = true →
  preflight args (boot w)
  = (Done (normalized args, client_a args, client_b args),
     after_preflight args w).
Proof.
  unfold preflight_ok.
  intros [[[Hurl Haddr]%andb_true_iff Hpa]%andb_true_iff Hpb]%andb_true_iff.
  unfold preflight, mbind, M_bind.
  rewrite url_loop_run, Hurl, address_loop_valid by done.
  unfold is_connected, after_preflight, normalized, client_a, client_b in *.
  cbn in *.
  destruct (w3_is_connected _ w) as [up_a w1]; cbn in *. subst up_a. cbn.
  destruct (w3_is_connected _ w1) as [up_b w2]; cbn in *. subst up_b. done.
Qed.

(** When some check fails, [preflight] ends the run with status 1. *)
Lemma preflight_fail args w :
  preflight_ok args w = false →
  ∃ m1, preflight args (boot w) = (SysExit 1, m1).
Proof.
  unfold preflight_ok. intros Hko.
  destruct (url_ok (rpc_a args) && url_ok (rpc_b args)) eqn:Hurl;
    [|eexists; by apply preflight_bad_url].
  unfold preflight, mbind, M_bind. rewrite url_loop_run, Hurl.
  cbn in Hko.
  destruct (forallb is_address (address args)) eqn:Haddr.
  - rewrite address_loop_valid by done.
    unfold is_connected, client_a, client_b in *. cbn in *.
    destruct (w3_is_connected _ w) as [[] w1]; cbn in *; [|by eexists].
    destruct (w3_is_connected _ w1) as [[] w2]; cbn in *; [done|by eexists].
  - destruct (address_loop_invalid (address args) [] (boot w) Haddr)
      as (a & _ & _ & ->). by eexists.
Qed.
End driver_facts.

Section driver_run.
Context `{Outside}.
Implicit Types (m : machine) (args : Namespace).

(** [audit] from the two fetches on: the report, the summary, the
    optional JSON document, and the exit with the code of the diff list. *)
Lemma audit_run args addrs w3a w3b m sa m3 sb m4 :
  analyze_accounts w3a addrs (block_a args) (fetch_start args addrs m)
  = (Done sa, m3) →
  analyze_accounts w3b addrs (block_b args) m3 = (Done sb, m4) →
  ∃ m5 tail,
    audit args addrs w3a w3b m
    = (SysExit (exit_code (compare_states sa sb)), m5)
    ∧ trace m5 = trace m4 ++ (Print <$> text_report addrs sa sb) ++ tail
    ∧ (json args = false → tail = [])
    ∧ (json args = true →
       ∃ doc, tail = [Print (json_dumps doc)]
              ∧ out_addresses _ doc = addrs
              ∧ out_state_a _ doc = sa ∧ out_state_b _ doc = sb
              ∧ out_diffs _ doc = compare_states sa sb
              ∧ out_ok _ doc = bool_decide (compare_states sa sb = [])).
Proof.
  unfold fetch_start, banner_lines. intros Hsa Hsb.
  unfold audit, mbind, M_bind, print, clock_utcnow, clock_time, emit.
  cbn [world trace].
  destruct (utcnow_isoformat (world m)) as [stamp w1]. cbn [world trace].
  destruct (time_time w1) as [start w2]. cbn [world trace snd] in *.
  rewrite <- !app_assoc. cbn [app fmap list_fmap] in *.
  rewrite Hsa, Hsb.
  destruct (time_time (world m4)) as [stop w5]. cbn [world trace].
  unfold report_one. rewrite for_each_print. cbn [world trace].
  assert (∀ tail,
    ((trace m4 ++ [Print (nl +:+ "📊 Results:")])
       ++ (Print <$> (result_line sa sb <$> addrs)))
      ++ Print (summary_line (compare_states sa sb)) :: tail
    = trace m4 ++ (Print <$> text_report addrs sa sb) ++ tail) as Htrace.
  { intros tail. unfold text_report. rewrite !fmap_app, <- !app_assoc. done. }
  destruct (json args); cbn [world trace].
  - destruct (utcnow_isoformat w5) as [stamp' w6]. cbn [world trace].
    eexists _, _. split; [reflexivity|]. cbn [trace].
    split; [rewrite <- app_assoc; apply Htrace|].
    split; [done|]. intros _. eexists. split; [reflexivity|]. cbn.
    split_and!; try done.
    apply bool_decide_ext. by destruct (compare_states sa sb).
  - eexists _, []. split; [reflexivity|]. cbn [trace].
    split; [apply Htrace|]. split; [done|]. done.
Qed.

Lemma stdout_prints (lines : list string) : stdout (Print <$> lines) = lines.
Proof. induction lines as [|l lines IH]; cbn; [done | by f_equal]. Qed.

(** A run that passes the pre-flight checks, from start to exit. *)
Lemma main_run args w sa m3 sb m4 :
  preflight_ok args w = true →
  analyze_accounts (client_a args) (normalized args) (block_a args)
    (fetch_start args (normalized args) (after_preflight args w))
  = (Done sa, m3) →
  analyze_accounts (client_b args) (normalized args) (block_b args) m3
  = (Done sb, m4) →
  ∃ tail,
    run args w
    = (exit_code (compare_states sa sb),
       trace m4 ++ (Print <$> text_report (normalized args) sa sb) ++ tail)
    ∧ (json args = false → tail = [])
    ∧ (tail = [] ∨ ∃ doc, tail = [Print (json_dumps doc)]).
Proof.
  intros Hok Hsa Hsb.
  destruct (audit_run args _ _ _ _ _ _ _ _ Hsa Hsb)
    as (m5 & tail & Haudit & Htrace & Hnojson & Hjson).
  exists tail. unfold run, main, mbind, M_bind.
  rewrite (preflight_pass _ _ Hok), Haudit. cbn. rewrite Htrace.
  split_and!; [done | done |].
  destruct (json args); [right | left; auto].
  destruct Hjson as (doc & -> & _); eauto.
Qed.

(** A run that fails a pre-flight check ends with status 1. *)
Lemma main_preflight_fail args w :
  preflight_ok args w = false → (run args w).1 = 1%Z.
Proof.
  intros [m1 Hpre]%preflight_fail.
  unfold run, main, mbind, M_bind. by rewrite Hpre.
Qed.

(** The two fetches of a run always complete. *)
Lemma fetches_complete args m :
  ∃ sa m3 sb m4,
    analyze_accounts (client_a args) (normalized args) (block_a args) m
    = (Done sa, m3)
    ∧ analyze_accounts (client_b args) (normalized args) (block_b args) m3
      = (Done sb, m4)
    ∧ stdout (trace m4)
      = stdout (trace m) ++ (progress_line <$> normalized args)
                         ++ (progress_line <$> normalized args).
Proof.
  destruct (analyze_loop_spec (client_a args) (block_a args)
              (normalized args) Dict.empty m)
    as (sa & m3 & Hsa & _ & _ & _ & Hout_a & _).
  destruct (analyze_loop_spec (client_b args) (block_b args)
              (normalized args) Dict.empty m3)
    as (sb & m4 & Hsb & _ & _ & _ & Hout_b & _).
  exists sa, m3, sb, m4. split_and!; [done | done |].
  by rewrite Hout_b, Hout_a, <- app_assoc.
Qed.
End driver_run.

(** ** Claims about the driver *)

Lemma forallb_false_elem {A} (f : A → bool) (l : list A) :
  forallb f l = false ↔ ∃ x, x ∈ l ∧ f x = false.
Proof.
  induction l as [|x l IH]; cbn.
  - split; [done | by intros (? & ?%elem_of_nil & _)].
  - rewrite andb_false_iff, IH. split.
    + intros [Hx|(y & Hy & Hfy)]; [exists x | exists y]; split; try done;
        [left | by right].
    + intros (y & [->|Hy]%elem_of_cons & Hfy); [by left | right; eauto].
Qed.

(** The pre-flight checks fail exactly when a URL is malformed, an address
    is invalid, or a client does not answer the probe. *)
Lemma preflight_ok_false `{Outside} args w :
  preflight_ok args w = false
  ↔ (url_ok (rpc_a args) = false ∨ url_ok (rpc_b args) = false)
    ∨ (∃ a, a ∈ address args ∧ is_address a = false)
    ∨ ((w3_is_connected (client_a args) w).1 = false
       ∨ (w3_is_connected (client_b args)
            (w3_is_connected (client_a args) w).2).1 = false).
Proof.
  unfold preflight_ok. rewrite !andb_false_iff, forallb_false_elem. tauto.
Qed.

(** C5: two state maps with identical keys and identical [Ok] records at
    every key give an empty diff list, and a run whose two fetches return
    them exits with status 0. *)
Theorem identical_states_exit_zero `{Outside} (a b : state) :
  (∀ addr, addr ∈ Dict.keys a ↔ addr ∈ Dict.keys b) →
  (∀ addr, addr ∈ Dict.keys a →
     ∃ bal txs, Dict.get a addr = Some (Ok bal txs)
                ∧ Dict.get b addr = Some (Ok bal txs)) →
  compare_states a b = []
  ∧ exit_code (compare_states a b) = 0%Z
  ∧ ∀ args w m3 m4,
      preflight_ok args w = true →
      analyze_accounts (client_a args) (normalized args) (block_a args)
        (fetch_start args (normalized args) (after_preflight args w))
      = (Done a, m3) →
      analyze_accounts (client_b args) (normalized args) (block_b args) m3
      = (Done b, m4) →
      (run args w).1 = 0%Z.
Proof.
  intros Hkeys Hok.
  pose proof (compare_states_identical a b Hkeys Hok) as Hnil.
  split; [done|]. split; [by rewrite Hnil|].
  intros args w m3 m4 Hpre Ha Hb.
  destruct (main_run args w a m3 b m4 Hpre Ha Hb) as (tail & -> & _).
  cbn. by rewrite Hnil.
Qed.

Lemma identical_states_exit_zero_witness :
  (@run demo (demo_args "http://a" ["0xA"]) 0%nat).1 = 0%Z.
Proof.
  destruct (@identical_states_exit_zero demo
              [("0xA", Ok 100 5)] [("0xA", Ok 100 5)])
    as (_ & _ & Hrun).
  - done.
  - intros addr ->%list_elem_of_singleton. exists 100%Z, 5%Z.
    split; reflexivity.
  - eapply (Hrun (demo_args "http://a" ["0xA"]) 0%nat);
      [reflexivity | reflexivity | reflexivity].
Defined.

(** C6: the exit status is 0, 1 or 2: it is 1 when a pre-flight check
    fails (malformed URL, invalid address, failed probe); otherwise the two
    fetches complete and the status is 0 when the diff list of the fetched
    maps is empty and 2 when it is not. *)
Theorem exit_status_cases `{Outside} args w :
  ((run args w).1 = 0%Z ∨ (run args w).1 = 1%Z ∨ (run args w).1 = 2%Z)
  ∧ ((url_ok (rpc_a args) = false ∨ url_ok (rpc_b args) = false)
     ∨ (∃ a, a ∈ address args ∧ is_address a = false)
     ∨ ((w3_is_connected (client_a args) w).1 = false
        ∨ (w3_is_connected (client_b args)
             (w3_is_connected (client_a args) w).2).1 = false) →
     (run args w).1 = 1%Z)
  ∧ (preflight_ok args w = true →
     ∃ sa m3 sb m4,
       analyze_accounts (client_a args) (normalized args) (block_a args)
         (fetch_start args (normalized args) (after_preflight args w))
       = (Done sa, m3)
       ∧ analyze_accounts (client_b args) (normalized args) (block_b args) m3
         = (Done sb, m4)
       ∧ (compare_states sa sb = [] → (run args w).1 = 0%Z)
       ∧ (compare_states sa sb ≠ [] → (run args w).1 = 2%Z)).
Proof.
  assert (preflight_ok args w = true →
     ∃ sa m3 sb m4,
       analyze_accounts (client_a args) (normalized args) (block_a args)
         (fetch_start args (normalized args) (after_preflight args w))
       = (Done sa, m3)
       ∧ analyze_accounts (client_b args) (normalized args) (block_b args) m3
         = (Done sb, m4)
       ∧ (run args w).1 = exit_code (compare_states sa sb)) as Hpass.
  { intros Hok.
    destruct (fetches_complete args
                (fetch_start args (normalized args) (after_preflight args w)))
      as (sa & m3 & sb & m4 & Hsa & Hsb & _).
    exists sa, m3, sb, m4. split_and!; [done | done |].
    by destruct (main_run args w sa m3 sb m4 Hok Hsa Hsb) as (tail & -> & _). }
  split_and!.
  - destruct (preflight_ok args w) eqn:Hok.
    + destruct (Hpass eq_refl) as (sa & m3 & sb & m4 & _ & _ & ->).
      destruct (compare_states sa sb); cbn; auto.
    + right. left. by apply main_preflight_fail.
  - intros Hfail%preflight_ok_false. by apply main_preflight_fail.
  - intros Hok. destruct (Hpass Hok) as (sa & m3 & sb & m4 & Hsa & Hsb & ->).
    exists sa, m3, sb, m4. split_and!; [done | done | |].
    + by intros ->.
    + by destruct (compare_states sa sb).
Qed.

Lemma exit_status_cases_witness :
  (@run demo (demo_args "ftp://x" ["0xA"]) 0%nat).1 = 1%Z
  ∧ (@run demo (demo_args "http://a" ["0xRICH"]) 0%nat).1 = 2%Z.
Proof.
  split.
  - apply (@exit_status_cases demo (demo_args "ftp://x" ["0xA"]) 0%nat).
    left. left. reflexivity.
  - destruct (@exit_status_cases demo (demo_args "http://a" ["0xRICH"]) 0%nat)
      as (_ & _ & Hpass).
    destruct (Hpass eq_refl) as (sa & m3 & sb & m4 & Hsa & Hsb & _ & Htwo).
    apply Htwo. vm_compute in Hsa. injection Hsa as <- <-.
    vm_compute in Hsb. injection Hsb as <- <-. by vm_compute.
Defined.

(** C8, as stated, fails: the run with a malformed URL prints a
    diagnostic line before it exits, so its output is not empty. *)
Lemma bad_url_prints_diagnostic :
  ¬ (∀ (O : Outside) args w,
       url_ok (rpc_a args) = false ∨ url_ok (rpc_b args) = false →
       (@run O args w).1 ≠ 0%Z
       ∧ Forall (λ e, is_network e = false) (@run O args w).2
       ∧ stdout (@run O args w).2 = []).
Proof.
  intros Hclaim.
  destruct (Hclaim demo (demo_args "ftp://x" ["0xA"]) 0%nat) as (_ & _ & Hout).
  - left. reflexivity.
  - vm_compute in Hout. discriminate Hout.
Qed.

(** C8, amended: when a configured RPC URL starts with neither
    ["http://"] nor ["https://"], the run ends with status 1 before any
    network call, and all it does is print one diagnostic line naming the
    first such URL. *)
Theorem bad_url_aborts `{Outside} args w :
  url_ok (rpc_a args) = false ∨ url_ok (rpc_b args) = false →
  (run args w).1 = 1%Z
  ∧ Forall (λ e, is_network e = false) (run args w).2
  ∧ (run args w).2
    = [Print ("❌ Invalid RPC URL: "
              +:+ (if url_ok (rpc_a args) then rpc_b args else rpc_a args))].
Proof.
  intros Hbad.
  assert (url_ok (rpc_a args) && url_ok (rpc_b args) = false) as Hurl
    by (apply andb_false_iff; tauto).
  unfold run, main, mbind, M_bind. rewrite (preflight_bad_url _ _ Hurl). cbn.
  split_and!; [done | by repeat constructor | done].
Qed.

Lemma bad_url_aborts_witness :
  @run demo (demo_args "ftp://x" ["0xA"]) 0%nat
  = (1%Z, [Print "❌ Invalid RPC URL: ftp://x"]).
Proof.
  destruct (@bad_url_aborts demo (demo_args "ftp://x" ["0xA"]) 0%nat)
    as (Hstatus & _ & Htrace).
  - left. reflexivity.
  - rewrite (surjective_pairing (run _ _)), Hstatus, Htrace. reflexivity.
Defined.

(** Every result line names its address right after the bullet. *)
Lemma result_line_names_address (state_a state_b : state) addr :
  ∃ rest,
    result_line state_a state_b addr = "  • " +:+ addr +:+ ": Balance " +:+ rest.
Proof. unfold result_line. by eexists. Qed.

(** C9: in a run that reaches the report, the output is the banner, the
    progress notices of the two fetches, then the report: one result line
    per input address, the line at position [i] being that of the address
    at position [i] of the input list, followed by the summary (and by the
    JSON document when asked for). *)
Theorem text_report_follows_input `{Outside} args w :
  preflight_ok args w = true →
  ∃ sa m3 sb m4 tail,
    analyze_accounts (client_a args) (normalized args) (block_a args)
      (fetch_start args (normalized args) (after_preflight args w))
    = (Done sa, m3)
    ∧ analyze_accounts (client_b args) (normalized args) (block_b args) m3
      = (Done sb, m4)
    ∧ stdout (run args w).2
      = banner_lines args (normalized args)
          (utcnow_isoformat (world (after_preflight args w))).1
        ++ (progress_line <$> normalized args)
        ++ (progress_line <$> normalized args)
        ++ [nl +:+ "📊 Results:"]
        ++ (result_line sa sb <$> normalized args)
        ++ [summary_line (compare_states sa sb)]
        ++ stdout tail
    ∧ (json args = false → tail = [])
    ∧ (tail = [] ∨ ∃ doc, tail = [Print (json_dumps doc)])
    ∧ length (result_line sa sb <$> normalized args) = length (address args)
    ∧ ∀ i a, address args !! i = Some a →
        (result_line sa sb <$> normalized args) !! i
        = Some (result_line sa sb (to_checksum_address a))
        ∧ ∃ rest, result_line sa sb (to_checksum_address a)
                  = "  • " +:+ to_checksum_address a +:+ ": Balance " +:+ rest.
Proof.
  intros Hok.
  destruct (fetches_complete args
              (fetch_start args (normalized args) (after_preflight args w)))
    as (sa & m3 & sb & m4 & Hsa & Hsb & Hout).
  destruct (main_run args w sa m3 sb m4 Hok Hsa Hsb)
    as (tail & Hrun & Hnojson & Hjson).
  exists sa, m3, sb, m4, tail.
  split_and!; [done | done | | done | done | |].
  - rewrite Hrun. cbn [snd]. rewrite !stdout_app, stdout_prints, Hout.
    unfold fetch_start, text_report.
    destruct (utcnow_isoformat (world (after_preflight args w))) as [stamp w1].
    cbn [trace fst]. rewrite stdout_app, stdout_prints.
    unfold after_preflight. cbn [trace stdout omap list_omap app].
    by rewrite <- !app_assoc.
  - unfold normalized. by rewrite !length_fmap.
  - intros i a Hi. split; [|apply result_line_names_address].
    unfold normalized. by rewrite !list_lookup_fmap, Hi.
Qed.

Lemma text_report_follows_input_witness :
  stdout (@run demo (demo_args "http://a" ["0xB"; "0xA"]) 0%nat).2
  = [ "🔧 zk-account-soundness"; "🔗 RPC A: http://a"; "🔗 RPC B: http://b";
      "🧱 Block A: latest | Block B: latest"; "👥 Accounts: 2";
      "🕒 Comparison Timestamp: 2024-01-01T00:00:00Z";
      "🔍 Fetching data for 0xB ..."; "🔍 Fetching data for 0xA ...";
      "🔍 Fetching data for 0xB ..."; "🔍 Fetching data for 0xA ...";
      nl +:+ "📊 Results:";
      "  • 0xB: Balance 100 vs 100, TXs 5 vs 5 → ✅ MATCH";
      "  • 0xA: Balance 100 vs 100, TXs 5 vs 5 → ✅ MATCH";
      nl +:+ "🎯 Account states match across both RPCs." ].
Proof.
  destruct (@text_report_follows_input demo
              (demo_args "http://a" ["0xB"; "0xA"]) 0%nat)
    as (sa & m3 & sb & m4 & tail & Hsa & Hsb & Hout & Hnojson & _).
  - reflexivity.
  - vm_compute in Hsa. injection Hsa as <- <-.
    vm_compute in Hsb. injection Hsb as <- <-.
    rewrite Hout, (Hnojson eq_refl). by vm_compute.
Defined.

(** ** Two runs in the concrete world *)

(** Both endpoints agree on the account: status 0, one [MATCH] line. *)
Example run_matching_account :
  (@run demo (demo_args "http://a" ["0xA"]) 0%nat).1 = 0%Z
  ∧ "  • 0xA: Balance 100 vs 100, TXs 5 vs 5 → ✅ MATCH"
    ∈ stdout (@run demo (demo_args "http://a" ["0xA"]) 0%nat).2.
Proof. split; [by vm_compute|]. vm_compute. do 9 right. left. Qed.

(** The endpoints disagree on the balance: status 2, one [DIFF] line that
    shows both balances, and a summary that counts one account. *)
Example run_differing_account :
  (@run demo (demo_args "http://a" ["0xRICH"]) 0%nat).1 = 2%Z
  ∧ "  • 0xRICH: Balance 100 vs 90, TXs 5 vs 5 → ❌ DIFF"
    ∈ stdout (@run demo (demo_args "http://a" ["0xRICH"]) 0%nat).2
  ∧ nl +:+ "🚨 1 account(s) differ between the two sources."
    ∈ stdout (@run demo (demo_args "http://a" ["0xRICH"]) 0%nat).2.
Proof.
  split; [by vm_compute|]. split; vm_compute.
  - do 9 right. left.
  - do 10 right. left.
Qed.

(** * Further properties of the reconciler *)

Lemma compare_states_NoDup (a b : state) : NoDup (compare_states a b).
Proof.
  rewrite compare_states_filter. apply NoDup_filter.
  unfold sorted. rewrite merge_sort_Permutation. apply NoDup_elements.
Qed.

Lemma differs_outside (a b : state) addr :
  addr ∉ Dict.keys a → addr ∉ Dict.keys b → differs a b addr = false.
Proof.
  intros Ha%dict_get_None_keys Hb%dict_get_None_keys.
  unfold differs, Dict.get_default. by rewrite Ha, Hb.
Qed.

(** X1: whatever the two dicts hold, the diff list has no repeated
    address, is strictly ascending, lists only keys of one of the two
    dicts, and is no longer than the two key lists together. *)
Theorem compare_states_shape (a b : state) :
  NoDup (compare_states a b)
  ∧ StronglySorted (strict String.le) (compare_states a b)
  ∧ (∀ addr, addr ∈ compare_states a b →
             addr ∈ Dict.keys a ∨ addr ∈ Dict.keys b)
  ∧ length (compare_states a b) ≤ length (Dict.keys a) + length (Dict.keys b).
Proof.
  split_and!.
  - apply compare_states_NoDup.
  - apply compare_states_ascending.
  - by intros addr [Hin _]%elem_of_compare_states.
  - rewrite <- length_app. apply submseteq_length, NoDup_submseteq.
    + apply compare_states_NoDup.
    + intros addr [Hin _]%elem_of_compare_states. by apply elem_of_app.
Qed.

(** X2: on state maps the diff list does not depend on which source is
    called A and which B. *)
Theorem compare_states_symmetric (a b : state) :
  is_state_map a = true → is_state_map b = true →
  compare_states a b = compare_states b a.
Proof.
  intros Ha Hb. rewrite !compare_states_filter.
  replace (key_union b a) with (key_union a b)
    by (unfold key_union; apply (comm_L (∪))).
  apply list_filter_iff. intros addr.
  rewrite !differs_lookup by done. split; congruence.
Qed.

Lemma compare_states_symmetric_witness :
  compare_states [("0xB", Ok 1 2); ("0xA", Err "boom")] [("0xA", Err "bam")]
  = compare_states [("0xA", Err "bam")] [("0xB", Ok 1 2); ("0xA", Err "boom")].
Proof. apply compare_states_symmetric; reflexivity. Defined.

(** X3: a state map compared with itself has no difference, [Err]
    entries included. *)
Theorem compare_states_self (a : state) :
  is_state_map a = true → compare_states a a = [].
Proof.
  intros Ha. destruct (compare_states a a) as [|addr diffs] eqn:E; [done|].
  assert (addr ∈ compare_states a a) as [_ Hdiff]%elem_of_compare_states
    by (rewrite E; left).
  by apply differs_lookup in Hdiff.
Qed.

Lemma compare_states_self_witness :
  compare_states [("0xB", Ok 1 2); ("0xA", Err "boom")]
                 [("0xB", Ok 1 2); ("0xA", Err "boom")] = [].
Proof. apply compare_states_self. reflexivity. Defined.

(** X4: compared with the empty map, in either position, a state map has
    every one of its addresses reported. *)
Theorem compare_states_against_empty (a : state) :
  is_state_map a = true →
  (∀ addr, addr ∈ compare_states a Dict.empty ↔ addr ∈ Dict.keys a)
  ∧ (∀ addr, addr ∈ compare_states Dict.empty a ↔ addr ∈ Dict.keys a).
Proof.
  intros Ha. split; intros addr;
    rewrite elem_of_compare_states, differs_lookup by done; cbn;
    rewrite dict_keys_is_Some, elem_of_nil;
    (split; [intros [[?|?] _]; done | intros [r Hr]; rewrite Hr; split; auto]).
Qed.

Lemma compare_states_against_empty_witness :
  "0xA" ∈ compare_states [("0xB", Ok 1 2); ("0xA", Err "boom")] Dict.empty.
Proof.
  apply (compare_states_against_empty [("0xB", Ok 1 2); ("0xA", Err "boom")]);
    [reflexivity|]. right. left.
Defined.

(** X5: the marker at the end of a report line agrees with the diff list:
    the line of an address ends in [DIFF] when the address is in the list
    and in [MATCH] when it is not, for every address and every two dicts. *)
Theorem report_marker_agrees (a b : state) addr :
  ∃ bal_a bal_b txa txb,
    result_line a b addr
    = "  • " +:+ addr +:+ ": Balance " +:+ bal_a +:+ " vs " +:+ bal_b
        +:+ ", TXs " +:+ txa +:+ " vs " +:+ txb +:+ " → "
        +:+ (if bool_decide (addr ∈ compare_states a b)
             then "❌ DIFF" else "✅ MATCH").
Proof.
  assert (bool_decide (addr ∈ compare_states a b) = differs a b addr) as ->.
  { destruct (differs a b addr) eqn:Hd.
    - apply bool_decide_eq_true, elem_of_compare_states. split; [|done].
      destruct (decide (addr ∈ Dict.keys a)) as [|Hna]; [by left|].
      destruct (decide (addr ∈ Dict.keys b)) as [|Hnb]; [by right|].
      by rewrite differs_outside in Hd.
    - apply bool_decide_eq_false. intros [_ ?]%elem_of_compare_states.
      congruence. }
  unfold result_line, differs.
  destruct (record_eqb _ _); cbn [negb]; by eexists _, _, _, _.
Qed.

(** * Further properties of the fetcher *)

Section fetcher_trace.
Context `{Outside}.
Implicit Types (m : machine) (results : state).

(** The trace of the loop is made of whole turns, one per address. *)
Lemma analyze_loop_trace w3 block l results m :
  ∃ res m' fulls,
    for_fold (analyze_one w3 block) l results m = (Done res, m')
    ∧ length fulls = length l
    ∧ trace m' = trace m ++ turns w3 block l fulls.
Proof.
  revert results m. induction l as [|addr l IH]; intros results m.
  - exists results, m, []. cbn. by rewrite app_nil_r.
  - cbn [for_fold]. unfold mbind, M_bind. rewrite analyze_one_run.
    destruct (eth_get_balance w3 addr block (world m)) as [[bal|e] w1].
    + destruct (eth_get_transaction_count w3 addr block w1) as [[txs|e] w2];
        cbn beta iota zeta;
        match goal with |- context [for_fold _ l ?acc ?m1] =>
          destruct (IH acc m1) as (res & m' & fulls & -> & Hlen & Htr) end;
        exists res, m', (true :: fulls); cbn in *;
        rewrite Hlen, Htr, <- app_assoc; done.
    + cbn beta iota.
      match goal with |- context [for_fold _ l ?acc ?m1] =>
        destruct (IH acc m1) as (res & m' & fulls & -> & Hlen & Htr) end.
      exists res, m', (false :: fulls). cbn in *.
      rewrite Hlen, Htr, <- app_assoc. done.
Qed.
End fetcher_trace.

Lemma balance_calls_app tr1 tr2 :
  balance_calls (tr1 ++ tr2) = balance_calls tr1 ++ balance_calls tr2.
Proof. apply omap_app. Qed.

Lemma tx_count_calls_app tr1 tr2 :
  tx_count_calls (tr1 ++ tr2) = tx_count_calls tr1 ++ tx_count_calls tr2.
Proof. apply omap_app. Qed.

Lemma probes_app tr1 tr2 : probes (tr1 ++ tr2) = probes tr1 ++ probes tr2.
Proof. apply omap_app. Qed.

Lemma turns_balance_calls w3 block l fulls :
  length fulls = length l →
  balance_calls (turns w3 block l fulls) = (λ addr, (w3, addr, block)) <$> l.
Proof.
  revert fulls. induction l as [|addr l IH]; intros [|full fulls] Hlen;
    try done.
  cbn [turns]. rewrite balance_calls_app, IH by (cbn in Hlen; lia).
  by destruct full.
Qed.

Lemma turns_tx_count_calls w3 block l fulls :
  sublist (tx_count_calls (turns w3 block l fulls))
          ((λ addr, (w3, addr, block)) <$> l).
Proof.
  revert fulls. induction l as [|addr l IH]; intros [|full fulls]; cbn [turns];
    try apply sublist_nil_l.
  rewrite tx_count_calls_app. destruct full; cbn.
  - by apply sublist_skip.
  - by apply sublist_cons.
Qed.

Lemma turns_stdout w3 block l fulls :
  length fulls = length l →
  stdout (turns w3 block l fulls) = progress_line <$> l.
Proof.
  revert fulls. induction l as [|addr l IH]; intros [|full fulls] Hlen;
    try done.
  cbn [turns]. unfold stdout in *. rewrite omap_app, IH by (cbn in Hlen; lia).
  by destruct full.
Qed.

Lemma turns_probes w3 block l fulls : probes (turns w3 block l fulls) = [].
Proof.
  revert fulls. induction l as [|addr l IH]; intros [|full fulls]; try done.
  cbn [turns]. rewrite probes_app, IH. by destruct full.
Qed.

Lemma turns_rpc_count w3 block l fulls :
  length fulls = length l →
  length l ≤ length (List.filter is_rpc_call (turns w3 block l fulls))
  ≤ 2 * length l.
Proof.
  revert fulls. induction l as [|addr l IH]; intros [|full fulls] Hlen;
    try (cbn in *; lia).
  cbn [turns]. rewrite List.filter_app, length_app.
  specialize (IH fulls ltac:(cbn in Hlen; lia)).
  destruct full; cbn in *; lia.
Qed.

(** X6: what a fetch adds to the trace is one whole turn per address of
    the list, in the order of the list: the progress notice, the balance
    lookup, and possibly the transaction-count lookup. *)
Theorem fetch_trace_in_turns `{Outside} w3 addresses block m :
  ∃ res m' fulls,
    analyze_accounts w3 addresses block m = (Done res, m')
    ∧ length fulls = length addresses
    ∧ trace m' = trace m ++ turns w3 block addresses fulls.
Proof. apply analyze_loop_trace. Qed.

(** X7: a fetch asks for the balance of every address of the list once
    per occurrence and in order, always on the client and block it was
    given; its transaction-count lookups are a subsequence of the same
    list; it probes nothing, prints one notice per address, and makes
    between one and two lookups per address. *)
Theorem fetch_calls `{Outside} w3 addresses block m :
  ∃ res m' evs,
    analyze_accounts w3 addresses block m = (Done res, m')
    ∧ trace m' = trace m ++ evs
    ∧ balance_calls evs = (λ addr, (w3, addr, block)) <$> addresses
    ∧ sublist (tx_count_calls evs) ((λ addr, (w3, addr, block)) <$> addresses)
    ∧ probes evs = []
    ∧ stdout evs = progress_line <$> addresses
    ∧ length addresses ≤ length (List.filter is_rpc_call evs)
      ≤ 2 * length addresses.
Proof.
  destruct (analyze_loop_trace w3 block addresses Dict.empty m)
    as (res & m' & fulls & Hrun & Hlen & Htr).
  exists res, m', (turns w3 block addresses fulls). split_and!; try done.
  - by apply turns_balance_calls.
  - apply turns_tx_count_calls.
  - apply turns_probes.
  - by apply turns_stdout.
  - by apply turns_rpc_count.
  - by apply turns_rpc_count.
Qed.

(** X8: when both lookups of an address return and the address does not
    come again later in the list, the map that is returned binds the
    address to the [Ok] record of the two answers. *)
Theorem fetch_success_recorded `{Outside} w3 block pre addr post m res1 m1
    bal w1 txs w2 :
  analyze_accounts w3 pre block m = (Done res1, m1) →
  eth_get_balance w3 addr block (world m1) = (Returned bal, w1) →
  eth_get_transaction_count w3 addr block w1 = (Returned txs, w2) →
  addr ∉ post →
  ∃ res m',
    analyze_accounts w3 (pre ++ addr :: post) block m = (Done res, m')
    ∧ Dict.get res addr = Some (Ok bal txs).
Proof.
  unfold analyze_accounts. intros Hpre Hbal Htxs Hpost.
  destruct (analyze_loop_spec w3 block post (Dict.set res1 addr (Ok bal txs))
              {| world := w2;
                 trace := trace m1 ++ [Print (progress_line addr);
                                       BalanceCall w3 addr block;
                                       TxCountCall w3 addr block] |})
    as (res & m' & Hrun & _ & _ & Hget & _).
  exists res, m'. split.
  - rewrite for_fold_app, Hpre. cbn [for_fold]. unfold mbind, M_bind.
    by rewrite analyze_one_run, Hbal, Htxs.
  - rewrite Hget by done. apply dict_get_set_eq.
Qed.

Lemma fetch_success_recorded_witness :
  ∃ res m',
    @analyze_accounts demo demo_a (["0xBAD"] ++ "0xA" :: ["0xB"]) "latest"
      demo_start = (Done res, m')
    ∧ Dict.get res "0xA" = Some (Ok 100 5).
Proof.
  apply (@fetch_success_recorded demo demo_a "latest" ["0xBAD"] "0xA" ["0xB"]
           demo_start [("0xBAD", Err "account not found")]
           (@Build_machine demo 1%nat
              [Print (progress_line "0xBAD");
               BalanceCall demo_a "0xBAD" "latest"])
           100 2%nat 5 3%nat); try reflexivity.
  intros Hin. apply elem_of_cons in Hin as [Hin|Hin];
    [discriminate Hin | by apply elem_of_nil in Hin].
Defined.

(** * Further properties of the driver *)

Section driver_more.
Context `{Outside}.
Implicit Types (m : machine) (args : Namespace).

(** The loop over [args.address] stops at the first invalid address. *)
Lemma address_loop_first_invalid pre a post acc m :
  forallb is_address pre = true → is_address a = false →
  for_fold check_address (pre ++ a :: post) acc m
  = (SysExit 1, emit (Print ("❌ Invalid address: " +:+ a)) m).
Proof.
  intros Hpre Ha. rewrite for_fold_app, address_loop_valid by done.
  cbn [for_fold]. unfold mbind, M_bind, check_address at 1. by rewrite Ha.
Qed.

(** What a failed pre-flight leaves behind: one printed line and no lookup
    of account data. *)
Lemma preflight_fail_trace args w :
  preflight_ok args w = false →
  ∃ m1, preflight args (boot w) = (SysExit 1, m1)
        ∧ List.filter is_rpc_call (trace m1) = []
        ∧ length (stdout (trace m1)) = 1.
Proof.
  unfold preflight_ok. intros Hko.
  destruct (url_ok (rpc_a args) && url_ok (rpc_b args)) eqn:Hurl;
    [|eexists; split; [by apply preflight_bad_url | done]].
  unfold preflight, mbind, M_bind. rewrite url_loop_run, Hurl.
  cbn in Hko.
  destruct (forallb is_address (address args)) eqn:Haddr.
  - rewrite address_loop_valid by done.
    unfold is_connected, client_a, client_b in *. cbn in *.
    destruct (w3_is_connected _ w) as [[] w1]; cbn in *; [|by eexists].
    destruct (w3_is_connected _ w1) as [[] w2]; cbn in *; [done|by eexists].
  - destruct (address_loop_invalid (address args) [] (boot w) Haddr)
      as (a & _ & _ & ->). by eexists.
Qed.

(** The two fetches of a run, with the turns they add to the trace. *)
Lemma fetches_trace args m :
  ∃ sa m3 sb m4 fa fb,
    analyze_accounts (client_a args) (normalized args) (block_a args) m
    = (Done sa, m3)
    ∧ analyze_accounts (client_b args) (normalized args) (block_b args) m3
      = (Done sb, m4)
    ∧ length fa = length (normalized args)
    ∧ length fb = length (normalized args)
    ∧ trace m4
      = trace m ++ turns (client_a args) (block_a args) (normalized args) fa
                ++ turns (client_b args) (block_b args) (normalized args) fb.
Proof.
  destruct (analyze_loop_trace (client_a args) (block_a args)
              (normalized args) Dict.empty m)
    as (sa & m3 & fa & Hsa & Hfa & Htra).
  destruct (analyze_loop_trace (client_b args) (block_b args)
              (normalized args) Dict.empty m3)
    as (sb & m4 & fb & Hsb & Hfb & Htrb).
  exists sa, m3, sb, m4, fa, fb. split_and!; try done.
  by rewrite Htrb, Htra, <- app_assoc.
Qed.
End driver_more.

(** X9: with well-formed URLs, the first invalid address of the command
    line ends the run with status 1; the run has made no network call and
    has printed nothing but the diagnostic that names that address. *)
Theorem invalid_address_aborts `{Outside} args w pre a post :
  url_ok (rpc_a args) = true → url_ok (rpc_b args) = true →
  address args = pre ++ a :: post →
  forallb is_address pre = true → is_address a = false →
  run args w = (1%Z, [Print ("❌ Invalid address: " +:+ a)]).
Proof.
  intros Hua Hub Haddrs Hpre Ha.
  unfold run, main, preflight, mbind, M_bind.
  rewrite url_loop_run, Hua, Hub, Haddrs. cbn [andb].
  by rewrite address_loop_first_invalid.
Qed.

Lemma invalid_address_aborts_witness :
  @run demo (demo_args "http://a" ["0xA"; "BAD"; "0xB"; "WORSE"]) 0%nat
  = (1%Z, [Print "❌ Invalid address: BAD"]).
Proof.
  apply (@invalid_address_aborts demo
           (demo_args "http://a" ["0xA"; "BAD"; "0xB"; "WORSE"]) 0%nat
           ["0xA"] "BAD" ["0xB"; "WORSE"]); reflexivity.
Defined.

(** X10: with well-formed URLs and valid addresses, a client that does
    not answer the probe ends the run with status 1 and one diagnostic
    line; no account data is looked up, and when the first client is down
    the second is not even probed. *)
Theorem probe_failure_aborts `{Outside} args w :
  url_ok (rpc_a args) = true → url_ok (rpc_b args) = true →
  forallb is_address (address args) = true →
  ((w3_is_connected (client_a args) w).1 = false →
   run args w
   = (1%Z, [Probe (client_a args);
            Print "❌ Failed to connect to one or both RPCs."]))
  ∧ ((w3_is_connected (client_a args) w).1 = true →
     (w3_is_connected (client_b args)
        (w3_is_connected (client_a args) w).2).1 = false →
     run args w
     = (1%Z, [Probe (client_a args); Probe (client_b args);
              Print "❌ Failed to connect to one or both RPCs."])).
Proof.
  intros Hua Hub Haddr.
  unfold run, main, preflight, mbind, M_bind.
  rewrite url_loop_run, Hua, Hub. cbn [andb].
  rewrite address_loop_valid by done.
  unfold is_connected, client_a, client_b. cbn.
  destruct (w3_is_connected _ w) as [up_a w1]; cbn. split.
  - by intros ->.
  - intros ->. cbn. destruct (w3_is_connected _ w1) as [up_b w2]; cbn.
    by intros ->.
Qed.

Lemma probe_failure_aborts_witness :
  @run demo (demo_args "http://down" ["0xA"]) 0%nat
  = (1%Z, [Probe {| endpoint := "http://down"; timeout := 30 |};
           Print "❌ Failed to connect to one or both RPCs."]).
Proof.
  apply (@probe_failure_aborts demo (demo_args "http://down" ["0xA"]) 0%nat);
    reflexivity.
Defined.

Section driver_trace.
Context `{Outside}.
Implicit Types (m : machine) (args : Namespace).

Lemma fetch_start_trace args addrs m :
  trace (fetch_start args addrs m)
  = trace m ++ (Print <$> banner_lines args addrs
                            (utcnow_isoformat (world m)).1).
Proof. unfold fetch_start. by destruct (utcnow_isoformat (world m)). Qed.

Lemma balance_calls_prints (lines : list string) :
  balance_calls (Print <$> lines) = [].
Proof. by induction lines. Qed.

Lemma probes_prints (lines : list string) : probes (Print <$> lines) = [].
Proof. by induction lines. Qed.

Lemma rpc_calls_prints (lines : list string) :
  List.filter is_rpc_call (Print <$> lines) = [].
Proof. by induction lines. Qed.

(** The whole trace of a run that passes the pre-flight checks. *)
Lemma run_trace_pass args w :
  preflight_ok args w = true →
  ∃ sa m3 sb m4 fa fb tail,
    analyze_accounts (client_a args) (normalized args) (block_a args)
      (fetch_start args (normalized args) (after_preflight args w))
    = (Done sa, m3)
    ∧ analyze_accounts (client_b args) (normalized args) (block_b args) m3
      = (Done sb, m4)
    ∧ length fa = length (address args)
    ∧ length fb = length (address args)
    ∧ run args w
      = (exit_code (compare_states sa sb),
         [Probe (client_a args); Probe (client_b args)]
         ++ (Print <$> banner_lines args (normalized args)
                         (utcnow_isoformat (world (after_preflight args w))).1)
         ++ turns (client_a args) (block_a args) (normalized args) fa
         ++ turns (client_b args) (block_b args) (normalized args) fb
         ++ (Print <$> text_report (normalized args) sa sb)
         ++ tail)
    ∧ (json args = false → tail = [])
    ∧ (tail = [] ∨ ∃ doc, tail = [Print (json_dumps doc)]).
Proof.
  intros Hok.
  destruct (fetches_trace args
              (fetch_start args (normalized args) (after_preflight args w)))
    as (sa & m3 & sb & m4 & fa & fb & Hsa & Hsb & Hfa & Hfb & Htr).
  destruct (main_run args w sa m3 sb m4 Hok Hsa Hsb)
    as (tail & Hrun & Hnojson & Htail).
  exists sa, m3, sb, m4, fa, fb, tail.
  unfold normalized in Hfa, Hfb. rewrite length_fmap in Hfa, Hfb.
  split_and!; try done.
  rewrite Hrun, Htr, fetch_start_trace. cbn [after_preflight trace].
  by rewrite <- !app_assoc.
Qed.
End driver_trace.

Section driver_trace_doc.
Context `{Outside}.
Implicit Types (m : machine) (args : Namespace).

(** The whole trace of a passing run, with the two maps it fetched and
    the document it prints under [--json]. *)
Lemma run_trace_doc args w :
  preflight_ok args w = true →
  ∃ sa m3 sb m4 fa fb tail,
    analyze_accounts (client_a args) (normalized args) (block_a args)
      (fetch_start args (normalized args) (after_preflight args w))
    = (Done sa, m3)
    ∧ analyze_accounts (client_b args) (normalized args) (block_b args) m3
      = (Done sb, m4)
    ∧ length fa = length (address args)
    ∧ length fb = length (address args)
    ∧ run args w
      = (exit_code (compare_states sa sb),
         [Probe (client_a args); Probe (client_b args)]
         ++ (Print <$> banner_lines args (normalized args)
                         (utcnow_isoformat (world (after_preflight args w))).1)
         ++ turns (client_a args) (block_a args) (normalized args) fa
         ++ turns (client_b args) (block_b args) (normalized args) fb
         ++ (Print <$> text_report (normalized args) sa sb)
         ++ tail)
    ∧ (json args = false → tail = [])
    ∧ (json args = true →
       ∃ doc, tail = [Print (json_dumps doc)]
              ∧ out_addresses _ doc = normalized args
              ∧ out_state_a _ doc = sa ∧ out_state_b _ doc = sb
              ∧ out_diffs _ doc = compare_states sa sb
              ∧ out_ok _ doc = bool_decide (compare_states sa sb = [])).
Proof.
  intros Hok.
  destruct (fetches_trace args
              (fetch_start args (normalized args) (after_preflight args w)))
    as (sa & m3 & sb & m4 & fa & fb & Hsa & Hsb & Hfa & Hfb & Htr).
  destruct (audit_run args _ _ _ _ _ _ _ _ Hsa Hsb)
    as (m5 & tail & Haudit & Htrace & Hnojson & Hjson).
  exists sa, m3, sb, m4, fa, fb, tail.
  unfold normalized in Hfa, Hfb. rewrite length_fmap in Hfa, Hfb.
  split_and!; try done.
  unfold run, main, mbind, M_bind.
  rewrite (preflight_pass _ _ Hok), Haudit. cbn [exit_status].
  rewrite Htrace, Htr, fetch_start_trace. cbn [after_preflight trace].
  by rewrite <- !app_assoc.
Qed.
End driver_trace_doc.

(** X11: a run that passes the pre-flight checks does things in this
    order and does nothing else: it probes client A, then client B; prints
    the banner; fetches every address from A; fetches every address from
    B; prints the report and the summary of the two maps it has fetched;
    prints the JSON document of those two maps when [--json] is given, and
    nothing more when it is not. *)
Theorem passing_run_trace `{Outside} args w :
  preflight_ok args w = true →
  ∃ sa m3 sb m4 fa fb tail,
    analyze_accounts (client_a args) (normalized args) (block_a args)
      (fetch_start args (normalized args) (after_preflight args w))
    = (Done sa, m3)
    ∧ analyze_accounts (client_b args) (normalized args) (block_b args) m3
      = (Done sb, m4)
    ∧ length fa = length (address args)
    ∧ length fb = length (address args)
    ∧ (run args w).2
      = [Probe (client_a args); Probe (client_b args)]
        ++ (Print <$> banner_lines args (normalized args)
                        (utcnow_isoformat (world (after_preflight args w))).1)
        ++ turns (client_a args) (block_a args) (normalized args) fa
        ++ turns (client_b args) (block_b args) (normalized args) fb
        ++ (Print <$> text_report (normalized args) sa sb)
        ++ tail
    ∧ (json args = false → tail = [])
    ∧ (json args = true →
       ∃ doc, tail = [Print (json_dumps doc)]
              ∧ out_addresses _ doc = normalized args
              ∧ out_state_a _ doc = sa ∧ out_state_b _ doc = sb
              ∧ out_diffs _ doc = compare_states sa sb
              ∧ out_ok _ doc = bool_decide (compare_states sa sb = [])).
Proof.
  intros Hok.
  destruct (run_trace_doc args w Hok)
    as (sa & m3 & sb & m4 & fa & fb & tail
        & Hsa & Hsb & Hfa & Hfb & -> & Hnj & Hj).
  by exists sa, m3, sb, m4, fa, fb, tail.
Qed.

Lemma passing_run_trace_witness :
  (∃ pre doc,
     (@run demo
        {| rpc_a := "http://a"; rpc_b := "http://b"; address := ["0xRICH"];
           block_a := "latest"; block_b := "latest"; json := true;
           arg_timeout := 30 |} 0%nat).2
     = pre ++ [Print (@json_dumps demo doc)]
     ∧ out_diffs _ doc = ["0xRICH"] ∧ out_ok _ doc = false)
  ∧ (@run demo (demo_args "http://a" ["0xBAD"]) 0%nat).2
    = [Probe demo_a; Probe {| endpoint := "http://b"; timeout := 30 |}]
      ++ (Print <$> banner_lines (demo_args "http://a" ["0xBAD"]) ["0xBAD"]
                      "2024-01-01T00:00:00")
      ++ turns demo_a "latest" ["0xBAD"] [false]
      ++ turns {| endpoint := "http://b"; timeout := 30 |} "latest"
           ["0xBAD"] [false]
      ++ (Print <$> text_report ["0xBAD"]
                      [("0xBAD", Err "account not found")]
                      [("0xBAD", Err "account not found")]).
Proof.
  split.
  - destruct (@passing_run_trace demo
                {| rpc_a := "http://a"; rpc_b := "http://b";
                   address := ["0xRICH"]; block_a := "latest";
                   block_b := "latest"; json := true; arg_timeout := 30 |}
                0%nat)
      as (sa & m3 & sb & m4 & fa & fb & tail
          & Hsa & Hsb & _ & _ & Hrun & _ & Hjson); [reflexivity|].
    destruct (Hjson eq_refl) as (doc & -> & _ & _ & _ & Hdiffs & Hok).
    vm_compute in Hsa. injection Hsa as <- <-.
    vm_compute in Hsb. injection Hsb as <- <-.
    eexists _, doc. split; [rewrite Hrun, !app_assoc; reflexivity|].
    rewrite Hdiffs, Hok. split; by vm_compute.
  - destruct (@passing_run_trace demo (demo_args "http://a" ["0xBAD"]) 0%nat)
      as (sa & m3 & sb & m4 & fa & fb & tail
          & Hsa & Hsb & Hfa & Hfb & Hrun & Hnojson & _); [reflexivity|].
    rewrite Hrun, (Hnojson eq_refl), app_nil_r.
    vm_compute in Hsa. injection Hsa as <- <-.
    vm_compute in Hsb. injection Hsb as <- <-.
    destruct fa as [|[] [|]]; try discriminate Hfa;
      destruct fb as [|[] [|]]; try discriminate Hfb;
      try reflexivity; exfalso;
      apply (f_equal (λ tr, length tr)) in Hrun; vm_compute in Hrun;
      discriminate Hrun.
Defined.

(** X12: account data is looked up only after the pre-flight checks have
    passed.  A run that fails a check ends with status 1, has looked up
    nothing and has printed exactly one line; a run that passes them never
    ends with status 1, has probed each client once, and has asked each
    client for the balance of every address, client A first. *)
Theorem lookups_only_after_preflight `{Outside} args w :
  (preflight_ok args w = false →
   (run args w).1 = 1%Z
   ∧ List.filter is_rpc_call (run args w).2 = []
   ∧ length (stdout (run args w).2) = 1)
  ∧ (preflight_ok args w = true →
     (run args w).1 ≠ 1%Z
     ∧ probes (run args w).2 = [client_a args; client_b args]
     ∧ balance_calls (run args w).2
       = ((λ addr, (client_a args, addr, block_a args)) <$> normalized args)
         ++ ((λ addr, (client_b args, addr, block_b args))
               <$> normalized args)).
Proof.
  split.
  - intros (m1 & Hpre & Hcalls & Hout)%preflight_fail_trace.
    unfold run, main, mbind, M_bind. by rewrite Hpre.
  - intros Hok.
    destruct (run_trace_pass args w Hok)
      as (sa & m3 & sb & m4 & fa & fb & tail & _ & _ & Hfa & Hfb & -> & _ & Ht).
    cbn [fst snd].
    assert (length fa = length (normalized args)
            ∧ length fb = length (normalized args)) as [Hfa' Hfb']
      by (unfold normalized; by rewrite length_fmap).
    split_and!.
    + by destruct (compare_states sa sb).
    + rewrite !probes_app, !probes_prints, !turns_probes.
      by destruct Ht as [->|[doc ->]].
    + rewrite !balance_calls_app, !balance_calls_prints,
        !turns_balance_calls by done.
      destruct Ht as [->|[doc ->]]; cbn; by rewrite !app_nil_r.
Qed.

Lemma lookups_only_after_preflight_witness :
  List.filter is_rpc_call
    (@run demo (demo_args "http://down" ["0xA"]) 0%nat).2 = []
  ∧ balance_calls (@run demo (demo_args "http://a" ["0xA"]) 0%nat).2
    = [(demo_a, "0xA", "latest");
       ({| endpoint := "http://b"; timeout := 30 |}, "0xA", "latest")].
Proof.
  split.
  - apply (@lookups_only_after_preflight demo
             (demo_args "http://down" ["0xA"]) 0%nat). reflexivity.
  - destruct (@lookups_only_after_preflight demo
                (demo_args "http://a" ["0xA"]) 0%nat) as [_ Hpass].
    destruct (Hpass eq_refl) as (_ & _ & ->). reflexivity.
Defined.

(** X13: the two maps a run compares have the same keys in the same
    order, so an address is never reported because one side lacks it:
    every reported address is one of the input addresses, bound on both
    sides to records that are not equal.  The diff list is no longer than
    the address list. *)
Theorem fetched_maps_share_keys `{Outside} w3a w3b addrs blk_a blk_b
    m sa m3 m' sb m4 :
  analyze_accounts w3a addrs blk_a m = (Done sa, m3) →
  analyze_accounts w3b addrs blk_b m' = (Done sb, m4) →
  Dict.keys sa = Dict.keys sb
  ∧ (∀ addr, addr ∈ compare_states sa sb →
       addr ∈ addrs
       ∧ ∃ ra rb, Dict.get sa addr = Some ra ∧ Dict.get sb addr = Some rb
                  ∧ record_eqb ra rb = false)
  ∧ length (compare_states sa sb) ≤ length addrs.
Proof.
  unfold analyze_accounts. intros Hsa Hsb.
  destruct (analyze_loop_spec w3a blk_a addrs Dict.empty m)
    as (sa' & m3' & Hsa' & Hka & _).
  destruct (analyze_loop_spec w3b blk_b addrs Dict.empty m')
    as (sb' & m4' & Hsb' & Hkb & _).
  rewrite Hsa in Hsa'. rewrite Hsb in Hsb'.
  injection Hsa' as <- <-. injection Hsb' as <- <-.
  change (foldl add_key (Dict.keys Dict.empty) addrs)
    with (insertion_order addrs) in Hka, Hkb.
  assert (∀ addr, addr ∈ compare_states sa sb → addr ∈ addrs) as Hsub.
  { intros addr [Hin _]%elem_of_compare_states.
    rewrite Hka, Hkb, !elem_of_insertion_order in Hin. tauto. }
  split_and!.
  - by rewrite Hka, Hkb.
  - intros addr Hin. split; [auto|].
    assert (addr ∈ insertion_order addrs) as Hkey
      by (apply elem_of_insertion_order; auto).
    assert (is_Some (Dict.get sa addr)) as [ra Hra]
      by (apply dict_keys_is_Some; by rewrite Hka).
    assert (is_Some (Dict.get sb addr)) as [rb Hrb]
      by (apply dict_keys_is_Some; by rewrite Hkb).
    exists ra, rb. split_and!; [done | done |].
    apply elem_of_compare_states in Hin as [_ Hd].
    rewrite (differs_get _ _ _ _ _ Hra Hrb) in Hd. by apply negb_true_iff.
  - apply submseteq_length, NoDup_submseteq;
      [apply compare_states_NoDup | done].
Qed.

Lemma fetched_maps_share_keys_witness :
  Dict.keys [("0xRICH", Ok 100 5); ("0xA", Ok 100 5)]
  = Dict.keys [("0xRICH", Ok 90 5); ("0xA", Ok 100 5)]
  ∧ length (compare_states [("0xRICH", Ok 100 5); ("0xA", Ok 100 5)]
                           [("0xRICH", Ok 90 5); ("0xA", Ok 100 5)]) ≤ 2.
Proof.
  destruct (@fetched_maps_share_keys demo demo_a
              {| endpoint := "http://b"; timeout := 30 |}
              ["0xRICH"; "0xA"] "latest" "latest" demo_start
              [("0xRICH", Ok 100 5); ("0xA", Ok 100 5)]
              (@Build_machine demo 4%nat
                 (turns demo_a "latest" ["0xRICH"; "0xA"] [true; true]))
              demo_start
              [("0xRICH", Ok 90 5); ("0xA", Ok 100 5)]
              (@Build_machine demo 4%nat
                 (turns {| endpoint := "http://b"; timeout := 30 |} "latest"
                    ["0xRICH"; "0xA"] [true; true])))
    as (Hkeys & _ & Hlen); [reflexivity | reflexivity |].
  split; [exact Hkeys | exact Hlen].
Defined.

Section driver_json.
Context `{Outside}.
Implicit Types (m : machine) (args : Namespace).

(** [audit] with [--json]: the document handed to [json.dumps]. *)
Lemma audit_json_doc args addrs w3a w3b m sa m3 sb m4 :
  json args = true →
  analyze_accounts w3a addrs (block_a args) (fetch_start args addrs m)
  = (Done sa, m3) →
  analyze_accounts w3b addrs (block_b args) m3 = (Done sb, m4) →
  ∃ m5 stamp elapsed,
    audit args addrs w3a w3b m
    = (SysExit (exit_code (compare_states sa sb)), m5)
    ∧ trace m5
      = trace m4 ++ (Print <$> text_report addrs sa sb)
        ++ [Print (json_dumps
                     (Build_report (rpc_a args) (rpc_b args) (block_a args)
                        (block_b args) addrs sa sb (compare_states sa sb)
                        (stamp +:+ "Z") elapsed
                        (bool_decide
                           (length (compare_states sa sb) = 0%nat))))].
Proof.
  unfold fetch_start, banner_lines. intros Hjson Hsa Hsb.
  unfold audit, mbind, M_bind, print, clock_utcnow, clock_time, emit.
  cbn [world trace].
  destruct (utcnow_isoformat (world m)) as [stamp w1]. cbn [world trace].
  destruct (time_time w1) as [start w2]. cbn [world trace snd] in *.
  rewrite <- !app_assoc. cbn [app fmap list_fmap] in *.
  rewrite Hsa, Hsb, Hjson.
  destruct (time_time (world m4)) as [stop w5]. cbn [world trace].
  unfold report_one. rewrite for_each_print. cbn [world trace].
  destruct (utcnow_isoformat w5) as [stamp' w6]. cbn [world trace].
  eexists _, stamp', (round2_sub stop start). split; [reflexivity|].
  cbn [trace]. unfold text_report. rewrite !fmap_app, <- !app_assoc. done.
Qed.
End driver_json.

(** X14: with [--json], the last thing a passing run prints is the JSON
    rendering of one document; its diff list is the diff list of the two
    state maps it carries, its address list is the normalised input, its
    timestamp ends in ["Z"], and its [ok] flag is set exactly when the
    exit status is 0. *)
Theorem json_document `{Outside} args w :
  preflight_ok args w = true → json args = true →
  ∃ sa sb stamp elapsed pre,
    (run args w).2
    = pre ++ [Print (json_dumps
                       (Build_report (rpc_a args) (rpc_b args) (block_a args)
                          (block_b args) (normalized args) sa sb
                          (compare_states sa sb) (stamp +:+ "Z") elapsed
                          (bool_decide ((run args w).1 = 0%Z))))]
    ∧ Dict.keys sa = insertion_order (normalized args)
    ∧ Dict.keys sb = insertion_order (normalized args).
Proof.
  intros Hok Hjson.
  destruct (analyze_loop_spec (client_a args) (block_a args) (normalized args)
              Dict.empty
              (fetch_start args (normalized args) (after_preflight args w)))
    as (sa & m3 & Hsa & Hka & _).
  destruct (analyze_loop_spec (client_b args) (block_b args) (normalized args)
              Dict.empty m3)
    as (sb & m4 & Hsb & Hkb & _).
  destruct (audit_json_doc args _ _ _ _ _ _ _ _ Hjson Hsa Hsb)
    as (m5 & stamp & elapsed & Haudit & Htrace).
  exists sa, sb, stamp, elapsed,
    (trace m4 ++ (Print <$> text_report (normalized args) sa sb)).
  split_and!; [|done|done].
  assert (run args w = (exit_code (compare_states sa sb), trace m5)) as ->.
  { unfold run, main, mbind, M_bind.
    by rewrite (preflight_pass _ _ Hok), Haudit. }
  cbn [fst snd]. rewrite Htrace, <- app_assoc.
  replace (bool_decide (exit_code (compare_states sa sb) = 0%Z))
    with (bool_decide (length (compare_states sa sb) = 0%nat)); [done|].
  apply bool_decide_ext. by destruct (compare_states sa sb).
Qed.

Lemma json_document_witness :
  ∃ sa sb stamp elapsed pre,
    (@run demo
       {| rpc_a := "http://a"; rpc_b := "http://b"; address := ["0xRICH"];
          block_a := "latest"; block_b := "latest"; json := true;
          arg_timeout := 30 |} 0%nat).2
    = pre ++ [Print (@json_dumps demo
                       (Build_report "http://a" "http://b" "latest" "latest"
                          ["0xRICH"] sa sb (compare_states sa sb)
                          (stamp +:+ "Z") elapsed false))].
Proof.
  destruct (@json_document demo
              {| rpc_a := "http://a"; rpc_b := "http://b";
                 address := ["0xRICH"]; block_a := "latest";
                 block_b := "latest"; json := true; arg_timeout := 30 |}
              0%nat)
    as (sa & sb & stamp & elapsed & pre & Hrun & _); [reflexivity..|].
  by exists sa, sb, stamp, elapsed, pre.
Defined.

Lemma summary_line_match (diffs : list string) :
  summary_line diffs = nl +:+ "🎯 Account states match across both RPCs."
  ↔ diffs = [].
Proof.
  destruct diffs as [|addr diffs]; [done|]. split; [|done].
  cbn. discriminate.
Qed.

(** X15: the summary that a passing run prints right after the report
    lines agrees with the exit status and with the diff list of the two
    maps the run has fetched: it is the line saying that the states match
    exactly when the status is 0, and when the status is 2 it states the
    length of that diff list, which is then at least 1.  Without [--json]
    nothing is printed after it. *)
Theorem summary_agrees_with_status `{Outside} args w :
  preflight_ok args w = true →
  ∃ sa m3 sb m4 pre tail,
    analyze_accounts (client_a args) (normalized args) (block_a args)
      (fetch_start args (normalized args) (after_preflight args w))
    = (Done sa, m3)
    ∧ analyze_accounts (client_b args) (normalized args) (block_b args) m3
      = (Done sb, m4)
    ∧ (run args w).2
      = pre ++ (Print <$> (result_line sa sb <$> normalized args))
            ++ Print (summary_line (compare_states sa sb)) :: tail
    ∧ (json args = false → tail = [])
    ∧ (tail = [] ∨ ∃ doc, tail = [Print (json_dumps doc)])
    ∧ (run args w).1 = exit_code (compare_states sa sb)
    ∧ ((run args w).1 = 0%Z
       ↔ summary_line (compare_states sa sb)
         = nl +:+ "🎯 Account states match across both RPCs.")
    ∧ ((run args w).1 = 2%Z →
       0 < length (compare_states sa sb)
       ∧ summary_line (compare_states sa sb)
         = nl +:+ "🚨 " +:+ pretty (length (compare_states sa sb))
             +:+ " account(s) differ between the two sources.").
Proof.
  intros Hok.
  destruct (fetches_complete args
              (fetch_start args (normalized args) (after_preflight args w)))
    as (sa & m3 & sb & m4 & Hsa & Hsb & _).
  destruct (main_run args w sa m3 sb m4 Hok Hsa Hsb)
    as (tail & -> & Hnojson & Htail).
  exists sa, m3, sb, m4, (trace m4 ++ [Print (nl +:+ "📊 Results:")]), tail.
  cbn [fst snd]. split_and!; try done.
  - unfold text_report. by rewrite !fmap_app, <- !app_assoc.
  - rewrite summary_line_match. by destruct (compare_states sa sb).
  - destruct (compare_states sa sb); [done|]. intros _. cbn. split; [lia|done].
Qed.

Lemma summary_agrees_with_status_witness :
  ∃ pre,
    (@run demo (demo_args "http://a" ["0xRICH"; "0xA"]) 0%nat).2
    = pre ++ [Print "  • 0xRICH: Balance 100 vs 90, TXs 5 vs 5 → ❌ DIFF";
              Print "  • 0xA: Balance 100 vs 100, TXs 5 vs 5 → ✅ MATCH";
              Print (nl +:+ "🚨 1 account(s) differ between the two sources.")].
Proof.
  destruct (@summary_agrees_with_status demo
              (demo_args "http://a" ["0xRICH"; "0xA"]) 0%nat)
    as (sa & m3 & sb & m4 & pre & tail & Hsa & Hsb & Hrun & Hnojson & _);
    [reflexivity|].
  vm_compute in Hsa. injection Hsa as <- <-.
  vm_compute in Hsb. injection Hsb as <- <-.
  exists pre. rewrite Hrun, (Hnojson eq_refl). reflexivity.
Defined.
